(** * parse-vue-component.py: the brace scanner and the section extractors

    A shallow embedding of [src/parse-vue-component.py].  A Python [str] is a
    sequence of Unicode code points; it is modelled as a list of code points
    [N].  Indices and the scanner's results are Python integers, modelled as
    [Z].  Subscripting follows Python: a negative index counts from the end
    and an index outside the sequence raises [IndexError]. *)

From Stdlib Require Import List ZArith NArith Lia Bool Arith.
From Stdlib Require Import Ascii String DecimalString.
Import ListNotations.

Open Scope Z_scope.

(** ** Characters and text *)

Definition char := N.
Definition str := list char.

Definition chr (a : ascii) : char := N_of_ascii a.

(** A literal of the source, written as a Rocq string. *)
Definition lit (s : string) : str := map chr (list_ascii_of_string s).

Definition dquote : char := 34%N.
Definition squote : char := 39%N.
Definition backtick : char := 96%N.
Definition backslash : char := 92%N.
Definition lbrace : char := 123%N.
Definition rbrace : char := 125%N.
Definition comma : char := 44%N.
Definition dollar : char := 36%N.

Definition len (t : str) : Z := Z.of_nat (List.length t).

Definition str_eqb (a b : str) : bool :=
  if list_eq_dec N.eq_dec a b then true else false.

(** [c in t] for a one-character [c]. *)
Definition contains (c : char) (t : str) : bool := existsb (N.eqb c) t.

(** ** Results of Python computations *)

Inductive result (A : Type) : Type :=
| Ok (a : A)
| IndexError
| OutOfFuel.

Arguments Ok {A} a.
Arguments IndexError {A}.
Arguments OutOfFuel {A}.

Definition bind {A B : Type} (r : result A) (k : A -> result B) : result B :=
  match r with
  | Ok a => k a
  | IndexError => IndexError
  | OutOfFuel => OutOfFuel
  end.

Notation "x <- r ;; k" := (bind r (fun x => k))
  (at level 61, r at next level, right associativity).

(** [t[i]] *)
Definition getitem (t : str) (i : Z) : result char :=
  let k := if i <? 0 then i + len t else i in
  if (0 <=? k) && (k <? len t) then
    match nth_error t (Z.to_nat k) with
    | Some c => Ok c
    | None => IndexError
    end
  else IndexError.

(** [t[a:b]] *)
Definition clamp (t : str) (i : Z) : Z :=
  if i <? 0 then Z.max 0 (i + len t) else Z.min i (len t).

Definition slice (t : str) (a b : Z) : str :=
  let a' := clamp t a in
  let b' := clamp t b in
  firstn (Z.to_nat (b' - a')) (skipn (Z.to_nat a') t).

(** ** find_matching_brace (lines 6-35) *)

(** Membership in the list of the three quote characters (line 17):
    double quote, single quote, backtick. *)
Definition is_quote (c : char) : bool :=
  (c =? dquote)%N || (c =? squote)%N || (c =? backtick)%N.

(** [char == string_char], where [string_char] is [None] or a character. *)
Definition eq_string_char (c : char) (sc : option char) : bool :=
  match sc with
  | Some q => (c =? q)%N
  | None => false
  end.

(** The condition of line 17, with Python's short-circuit evaluation. *)
Definition quote_cond (text : str) (i : Z) (c : char) : result bool :=
  if is_quote c then
    if i =? 0 then Ok true
    else prev <- getitem text (i - 1) ;; Ok (negb (prev =? backslash)%N)
  else Ok false.

(** Lines 18-23. *)
Definition quote_update (c : char) (in_string : bool) (string_char : option char)
  : bool * option char :=
  if negb in_string then (true, Some c)
  else if eq_string_char c string_char then (false, None)
  else (in_string, string_char).

(** Lines 16-23: the quote state after the character at [i]. *)
Definition quote_step (text : str) (i : Z) (c : char)
    (in_string : bool) (string_char : option char)
  : result (bool * option char) :=
  q <- quote_cond text i c ;;
  Ok (if q then quote_update c in_string string_char
      else (in_string, string_char)).

Fixpoint fmb_loop (fuel : nat) (text : str) (i depth : Z)
    (in_string : bool) (string_char : option char) : result Z :=
  if i <? len text then
    match fuel with
    | O => OutOfFuel
    | S fuel' =>
        c <- getitem text i ;;
        qs <- quote_step text i c in_string string_char ;;
        let '(in_string, string_char) := qs in
        if negb in_string then
          if (c =? lbrace)%N then
            fmb_loop fuel' text (i + 1) (depth + 1) in_string string_char
          else if (c =? rbrace)%N then
            let depth := depth - 1 in
            if depth =? 0 then Ok i
            else fmb_loop fuel' text (i + 1) depth in_string string_char
          else fmb_loop fuel' text (i + 1) depth in_string string_char
        else fmb_loop fuel' text (i + 1) depth in_string string_char
    end
  else Ok (-1).

(** The loop runs at most [len(text) - start_pos] times. *)
Definition find_matching_brace (text : str) (start_pos : Z) : result Z :=
  fmb_loop (Z.to_nat (len text - start_pos)) text start_pos 0 false None.

(** ** Anchors: the fragment of [re] the script uses

    Every pattern of the script is a concatenation of literal text and of
    [\s*].  [match_here] is the backtracking matcher of [re] on that
    fragment: [\s*] is greedy and gives characters back one at a time. *)

Inductive re_atom : Type :=
| Lit (s : str)
| SpaceStar.

Definition regex := list re_atom.

(** [\s] on a [str] pattern: the code points for which [str.isspace] holds. *)
Definition is_space (c : char) : bool :=
  ((9 <=? c) && (c <=? 13) || (28 <=? c) && (c <=? 32) || (c =? 133) || (c =? 160)
   || (c =? 5760) || (8192 <=? c) && (c <=? 8202) || (c =? 8232) || (c =? 8233)
   || (c =? 8239) || (c =? 8287) || (c =? 12288))%N.

Fixpoint starts_with (p s : str) : bool :=
  match p, s with
  | [], _ => true
  | a :: p', b :: s' => (a =? b)%N && starts_with p' s'
  | _ :: _, [] => false
  end.

(** Greedy [\s*] followed by the rest of the pattern. *)
Fixpoint space_star (rest : str -> option nat) (s : str) : option nat :=
  match s with
  | c :: s' =>
      if is_space c then
        match space_star rest s' with
        | Some n => Some (S n)
        | None => rest s
        end
      else rest s
  | [] => rest s
  end.

(** The number of characters a match of [p] at the head of [s] consumes. *)
Fixpoint match_here (p : regex) (s : str) {struct p} : option nat :=
  match p with
  | [] => Some O
  | Lit l :: p' =>
      if starts_with l s then
        option_map (Nat.add (List.length l)) (match_here p' (skipn (List.length l) s))
      else None
  | SpaceStar :: p' => space_star (match_here p') s
  end.

(** The least number of characters a match consumes. *)
Fixpoint min_width (p : regex) : nat :=
  match p with
  | [] => O
  | Lit l :: p' => (List.length l + min_width p')%nat
  | SpaceStar :: p' => min_width p'
  end.

Record re_match : Type := { m_start : Z; m_end : Z }.

(** The leftmost match: positions are tried from left to right, the end of
    the text included. *)
Fixpoint search_from (p : regex) (s : str) (pos : Z) : option re_match :=
  match match_here p s with
  | Some n => Some {| m_start := pos; m_end := pos + Z.of_nat n |}
  | None =>
      match s with
      | [] => None
      | _ :: s' => search_from p s' (pos + 1)
      end
  end.

Definition re_search (p : regex) (content : str) : option re_match :=
  search_from p content 0.

(** The characters that [re] does not take literally.  Lines 66 and 93 put
    the name they are given into the pattern as it is: [section_pattern] and
    [lifecycle_pattern] below are the patterns of those lines for a name that
    holds none of these characters, and only for such a name; every
    statement about [extract_section] or [extract_lifecycle] with a name that
    is not fixed assumes [regex_literal] of it. *)
Definition is_meta (c : char) : bool :=
  existsb (N.eqb c) (lit ".^$*+?{}[]\|()").

Definition regex_literal (name : str) : bool :=
  forallb (fun c => negb (is_meta c)) name.

(** The pattern of line 40: [template:], [\s*], a backslash, a backtick. *)
Definition template_pattern : regex :=
  [Lit (lit "template:"); SpaceStar; Lit [backslash]; Lit [backtick]].

(** The pattern of line 66, for a [section_name] with [regex_literal]
    (the script passes [computed] and [methods]). *)
Definition section_pattern (section_name : str) : regex :=
  [Lit section_name; Lit (lit ":"); SpaceStar; Lit [lbrace]].

(** The pattern of line 80. *)
Definition data_pattern : regex :=
  [Lit (lit "data()"); SpaceStar; Lit [lbrace]; SpaceStar; Lit (lit "return");
   SpaceStar; Lit [lbrace]].

(** The pattern of line 93, for a [hook_name] with [regex_literal] (the
    script passes [mounted]). *)
Definition lifecycle_pattern (hook_name : str) : regex :=
  [Lit hook_name; Lit (lit "()"); SpaceStar; Lit [lbrace]].

(** ** str.replace, for a non-empty [old]

    Occurrences are replaced from left to right and do not overlap: after a
    replacement the remaining [len(old) - 1] characters of the occurrence are
    skipped. *)

Fixpoint replace_from (old new : str) (skip : nat) (s : str) : str :=
  match s with
  | [] => []
  | c :: s' =>
      match skip with
      | S k => replace_from old new k s'
      | O =>
          if starts_with old s then
            new ++ replace_from old new (List.length old - 1) s'
          else c :: replace_from old new O s'
      end
  end.

Definition replace (s old new : str) : str := replace_from old new O s.

(** Line 58. *)
Definition unescape (template : str) : str :=
  replace (replace (replace template [backslash; backtick] [backtick])
             [backslash; squote] [squote])
    [backslash; dollar] [dollar].

(** ** extract_template (lines 37-62) *)

(** The heuristic of lines 54-55. *)
Definition lookahead (content : str) (i : Z) : bool :=
  let after := slice content (i + 1) (i + 10) in
  contains comma after || contains rbrace after.

(** The condition of line 52, with Python's short-circuit evaluation. *)
Definition closing_cond (content : str) (i : Z) : result bool :=
  c <- getitem content i ;;
  if (c =? backtick)%N then
    prev <- getitem content (i - 1) ;; Ok (negb (prev =? backslash)%N)
  else Ok false.

(** One turn of the loop of lines 48-60: [Next i] goes on at [i]
    ([continue] after [i += 2], or the [i += 1] of line 60), [Stop t] is the
    [return] of line 59. *)
Inductive turn : Type :=
| Next (i : Z)
| Stop (template : str).

Definition template_step (content : str) (start i : Z) : result turn :=
  if str_eqb (slice content i (i + 2)) [backslash; backtick] then Ok (Next (i + 2))
  else
    b <- closing_cond content i ;;
    if b && lookahead content i then
      Ok (Stop (unescape (slice content start i)))
    else Ok (Next (i + 1)).

Fixpoint template_loop (fuel : nat) (content : str) (start i : Z)
  : result (option str) :=
  if i <? len content then
    match fuel with
    | O => OutOfFuel
    | S fuel' =>
        t <- template_step content start i ;;
        match t with
        | Stop template => Ok (Some template)
        | Next i' => template_loop fuel' content start i'
        end
    end
  else Ok None.

(** The loop from [i] on; it runs at most [len(content) - i] times. *)
Definition template_scan (content : str) (start i : Z) : result (option str) :=
  template_loop (Z.to_nat (len content - i)) content start i.

Definition extract_template (content : str) : result (option str) :=
  match re_search template_pattern content with
  | None => Ok None
  | Some m =>
      let start := m_end m in
      template_scan content start start
  end.

(** ** extract_section, extract_data, extract_lifecycle (lines 64-103) *)

(** Lines 71-76, 84-89 and 98-103: the three extractors share them. *)
Definition extract_braces (content : str) (m : re_match) : result (option str) :=
  let start := m_end m - 1 in
  end_ <- find_matching_brace content start ;;
  if end_ =? -1 then Ok None
  else Ok (Some (slice content (start + 1) end_)).

Definition extract_section (content section_name : str) : result (option str) :=
  match re_search (section_pattern section_name) content with
  | None => Ok None
  | Some m => extract_braces content m
  end.

Definition extract_data (content : str) : result (option str) :=
  match re_search data_pattern content with
  | None => Ok None
  | Some m => extract_braces content m
  end.

Definition extract_lifecycle (content hook_name : str) : result (option str) :=
  match re_search (lifecycle_pattern hook_name) content with
  | None => Ok None
  | Some m => extract_braces content m
  end.

(** ** The driver (lines 105-142)

    The script's effects are file writes and printed lines; a run is the list
    of its effects in order.  The input file's content is the argument. *)

Inductive effect : Type :=
| WriteFile (path : string) (data : str)
| Print (line : str).

(** str.splitlines: the line boundaries of Python, CR LF counting once. *)
Definition is_linebreak (c : char) : bool :=
  ((10 <=? c) && (c <=? 13) || (28 <=? c) && (c <=? 30) || (c =? 133)
   || (c =? 8232) || (c =? 8233))%N.

Fixpoint splitlines_from (cur : str) (s : str) : list str :=
  match s with
  | [] => match cur with [] => [] | _ :: _ => [rev cur] end
  | c :: s' =>
      if is_linebreak c then
        match s' with
        | d :: s'' =>
            if (c =? 13)%N && (d =? 10)%N then rev cur :: splitlines_from [] s''
            else rev cur :: splitlines_from [] s'
        | [] => [rev cur]
        end
      else splitlines_from (c :: cur) s'
  end.

Definition splitlines (s : str) : list str := splitlines_from [] s.

(** The decimal digits of a length, as an f-string prints them. *)
Definition decimal (n : nat) : str := lit (NilEmpty.string_of_uint (Nat.to_uint n)).

Definition check_mark : char := 10003%N.

Definition confirmation (name : string) (span : str) : str :=
  [check_mark] ++ lit " Extracted " ++ lit name ++ lit " ("
    ++ decimal (List.length (splitlines span)) ++ lit " lines)".

(** Truth value of a value that is [None] or a [str]. *)
Definition truthy (r : option str) : bool :=
  match r with
  | Some (_ :: _) => true
  | Some [] => false
  | None => false
  end.

(** One [if section: write; print] block of lines 117-140. *)
Definition save (path name : string) (r : option str) (out : list effect)
  : list effect :=
  match r with
  | Some span =>
      if truthy r then out ++ [WriteFile path span; Print (confirmation name span)]
      else out
  | None => out
  end.

Definition done_line : str :=
  [10%N] ++ lit "Done! Ready to assemble Vue component.".

Definition driver (content : str) : result (list effect) :=
  template <- extract_template content ;;
  data <- extract_data content ;;
  computed <- extract_section content (lit "computed") ;;
  methods <- extract_section content (lit "methods") ;;
  mounted <- extract_lifecycle content (lit "mounted") ;;
  let out := [] in
  let out := save "frontend/vue-template.html" "template" template out in
  let out := save "frontend/vue-data.js" "data" data out in
  let out := save "frontend/vue-computed.js" "computed" computed out in
  let out := save "frontend/vue-methods.js" "methods" methods out in
  let out := save "frontend/vue-mounted.js" "mounted" mounted out in
  Ok (out ++ [Print done_line]).

(** What a run shows of one section: the file at [path] is written with
    exactly the non-empty span the extractor returned, and the confirmation
    line of [name] is printed exactly when there is such a span. *)
Definition saved (path name : string) (r : option str) (out : list effect) : Prop :=
  (forall t, In (WriteFile path t) out <-> r = Some t /\ t <> [])
  /\ ((exists t, In (Print (confirmation name t)) out)
      <-> exists t, r = Some t /\ t <> [])
  /\ (forall t, r = Some t -> t <> [] -> In (Print (confirmation name t)) out).

(** Nothing of the section shows in the run. *)
Definition skipped (path name : string) (out : list effect) : Prop :=
  (forall t, ~ In (WriteFile path t) out)
  /\ (forall t, ~ In (Print (confirmation name t)) out).

(** ** Quote-aware brace depth, as the design describes it

    Positions are natural numbers here.  [quote_after text start n] is the
    quote state once the [n] characters from [start] on have been read:
    [None] outside a string, [Some q] inside a string opened by [q].
    [depth_after text start n] is the number of opening braces minus the
    number of closing braces among them, braces inside a string left out.
    A quote character counts as escaped when the character before it is a
    backslash, whatever stands before that backslash. *)

Definition preceded_by_backslash (text : str) (k : nat) : bool :=
  match k with
  | O => false
  | S k' =>
      match nth_error text k' with
      | Some c => (c =? backslash)%N
      | None => false
      end
  end.

Definition quote_next (text : str) (k : nat) (q : option char) : option char :=
  match nth_error text k with
  | Some c =>
      if is_quote c && negb (preceded_by_backslash text k) then
        match q with
        | None => Some c
        | Some o => if (c =? o)%N then None else q
        end
      else q
  | None => q
  end.

Fixpoint quote_after (text : str) (start n : nat) : option char :=
  match n with
  | O => None
  | S n' => quote_next text (start + n') (quote_after text start n')
  end.

Definition brace_delta (text : str) (k : nat) (q : option char) : Z :=
  match q, nth_error text k with
  | None, Some c =>
      if (c =? lbrace)%N then 1 else if (c =? rbrace)%N then -1 else 0
  | _, _ => 0
  end.

Fixpoint depth_after (text : str) (start n : nat) : Z :=
  match n with
  | O => 0
  | S n' =>
      depth_after text start n'
      + brace_delta text (start + n') (quote_after text start (S n'))
  end.

(** The position [k >= start] lies inside a string literal, the scan having
    begun at [start]. *)
Definition in_quote (text : str) (start k : nat) : Prop :=
  quote_after text start (S (k - start)) <> None.

(** The depth over the characters from [start] to [k] inclusive. *)
Definition depth_upto (text : str) (start k : nat) : Z :=
  depth_after text start (S (k - start)).

(** The [n]-th character from [start] is a closing brace outside every
    string that brings the depth to zero. *)
Definition returns_at (text : str) (start n : nat) : bool :=
  match nth_error text (start + n), quote_after text start (S n) with
  | Some c, None => (c =? rbrace)%N && (depth_after text start (S n) =? 0)
  | _, _ => false
  end.

Definition is_some {A : Type} (o : option A) : bool :=
  match o with
  | Some _ => true
  | None => false
  end.


(** ** Escaping, the inverse of line 58

    The source document writes a backslash before each backtick, single
    quote and dollar sign of the template. *)

Definition escape_with (special : char -> bool) (s : str) : str :=
  flat_map (fun c => if special c then [backslash; c] else [c]) s.

Definition escapable (c : char) : bool :=
  (c =? backtick)%N || (c =? squote)%N || (c =? dollar)%N.

Definition escape (s : str) : str := escape_with escapable s.

(** Undoing the escaping in one pass, as the design words it: a backslash
    is dropped when the character after it is [special], and nothing else
    changes. *)
Fixpoint drop_escapes (special : char -> bool) (s : str) : str :=
  match s with
  | [] => []
  | c :: s' =>
      match s' with
      | d :: s'' =>
          if (c =? backslash)%N && special d then d :: drop_escapes special s''
          else c :: drop_escapes special s'
      | [] => [c]
      end
  end.

(** A backtick at [i] that line 52 accepts and whose lookahead succeeds. *)
Definition closing_backtick (content : str) (i : Z) : Prop :=
  getitem content i = Ok backtick
  /\ getitem content (i - 1) <> Ok backslash
  /\ lookahead content i = true.

(** ** String literals with escape sequences

    The usual reading of a quoted string literal, which the claims about
    braces in strings refer to: a quote character opens a literal, inside it
    a backslash takes the next character with it, and the first quote
    character of the same kind that no backslash has taken closes it.
    [literal_after text start n] is the state once the [n] characters from
    [start] on have been read. *)











(** ** Brace-delimited bodies

    The text between an opening brace and its closing brace, as a grammar:
    plain characters, nested braces, and string literals.  A plain character
    is neither a quote, a brace nor a backslash.  Inside a string literal
    opened by [q] anything may stand, as long as every [q] in it follows a
    backslash and the literal does not end with a backslash. *)

Definition plain (c : char) : bool :=
  negb (is_quote c) && negb (c =? lbrace)%N && negb (c =? rbrace)%N
  && negb (c =? backslash)%N.

Definition string_body (q : char) (s : str) : Prop :=
  (forall k, nth_error s k = Some q -> preceded_by_backslash s k = true)
  /\ nth_error s (List.length s - 1) <> Some backslash.

Inductive balanced : str -> Prop :=
| bal_nil : balanced []
| bal_plain (c : char) (b : str) :
    plain c = true -> balanced b -> balanced (c :: b)
| bal_braces (b1 b2 : str) :
    balanced b1 -> balanced b2 -> balanced (lbrace :: b1 ++ rbrace :: b2)
| bal_string (q : char) (s b : str) :
    is_quote q = true -> string_body q s -> balanced b ->
    balanced (q :: s ++ q :: b).

(** The characters of [b] stand in [text] from position [i] on. *)
Definition segment (text : str) (i : nat) (b : str) : Prop :=
  forall k, (k < List.length b)%nat -> nth_error text (i + k) = nth_error b k.

(** The position [k] holds a closing brace outside every string at which the
    depth, counted from [start], is zero. *)
Definition closes_at (text : str) (start k : nat) : Prop :=
  nth_error text k = Some rbrace
  /\ ~ in_quote text start k
  /\ depth_upto text start k = 0.

(** * Properties *)

Example fmb_ex1 :
  find_matching_brace (lit "{" ++ [dquote] ++ lit "a}b" ++ [dquote] ++ lit "}") 0 = Ok 6.
Proof. reflexivity. Qed.

Example fmb_ex2 : find_matching_brace (lit "{a{b}c}d}") 0 = Ok 6.
Proof. reflexivity. Qed.

Example fmb_ex3 : find_matching_brace (lit "{a{b}c") 0 = Ok (-1).
Proof. reflexivity. Qed.

Example fmb_ex4 : find_matching_brace (lit "ab") (-3) = IndexError.
Proof. reflexivity. Qed.

Example template_ex1 :
  extract_template (lit "template: \`<b>\`x\` \$ \'</b>`, data") = Ok (Some (lit "<b>`x` $ '</b>")).
Proof. vm_compute. reflexivity. Qed.

Example template_ex2 : extract_template (lit "template: `hi`,") = Ok None.
Proof. vm_compute. reflexivity. Qed.

Example data_ex1 :
  extract_data (lit "x data() { return { count: 0 }; } y") = Ok (Some (lit " count: 0 ")).
Proof. vm_compute. reflexivity. Qed.

Example section_ex1 :
  extract_section (lit "methods: { foo() { return 1; } } }} }") (lit "methods")
  = Ok (Some (lit " foo() { return 1; } ")).
Proof. vm_compute. reflexivity. Qed.

Example section_ex2 : extract_section (lit "methods: {}") (lit "methods") = Ok (Some []).
Proof. vm_compute. reflexivity. Qed.

Example driver_ex1 :
  driver (lit "methods: {}, computed: { a }") =
  Ok [WriteFile "frontend/vue-computed.js" (lit " a ");
      Print (check_mark :: lit " Extracted computed (1 lines)");
      Print done_line].
Proof. vm_compute. reflexivity. Qed.

(** ** Subscripts and slices inside the bounds *)

Lemma len_nonneg (t : str) : 0 <= len t.
Proof. unfold len. lia. Qed.

Lemma len_app (a b : str) : len (a ++ b) = len a + len b.
Proof. unfold len. rewrite length_app. lia. Qed.

Lemma getitem_nat (t : str) (k : nat) (c : char) :
  nth_error t k = Some c -> getitem t (Z.of_nat k) = Ok c.
Proof.
  intros H. unfold getitem.
  assert (Hk : (k < List.length t)%nat) by (apply nth_error_Some; congruence).
  destruct (Z.ltb_spec (Z.of_nat k) 0); [lia|].
  destruct (Z.leb_spec 0 (Z.of_nat k)); [|lia].
  destruct (Z.ltb_spec (Z.of_nat k) (len t)); [|unfold len in *; lia].
  simpl. rewrite Nat2Z.id, H. reflexivity.
Qed.

Lemma getitem_in_range (t : str) (i : Z) :
  0 <= i < len t ->
  exists c, getitem t i = Ok c /\ nth_error t (Z.to_nat i) = Some c.
Proof.
  intros H.
  destruct (nth_error t (Z.to_nat i)) as [c|] eqn:E.
  - exists c. split; [|reflexivity].
    rewrite <- (Z2Nat.id i) by lia. apply getitem_nat, E.
  - apply nth_error_None in E. unfold len in H. lia.
Qed.

Lemma getitem_Ok_nat (t : str) (k : nat) (c : char) :
  getitem t (Z.of_nat k) = Ok c -> nth_error t k = Some c.
Proof.
  unfold getitem.
  destruct (Z.ltb_spec (Z.of_nat k) 0); [lia|].
  destruct (Z.leb_spec 0 (Z.of_nat k)); [|lia].
  destruct (Z.ltb_spec (Z.of_nat k) (len t)); simpl; [|discriminate].
  rewrite Nat2Z.id. destruct (nth_error t k); congruence.
Qed.

(** ** The scanner always returns *)

Lemma quote_cond_total (text : str) (i : Z) (c : char) :
  0 <= i < len text -> exists b, quote_cond text i c = Ok b.
Proof.
  intros H. unfold quote_cond.
  destruct (is_quote c); [|eauto].
  destruct (Z.eqb_spec i 0); [eauto|].
  destruct (getitem_in_range text (i - 1)) as [p [Hp _]]; [lia|].
  rewrite Hp. simpl. eauto.
Qed.

Lemma fmb_loop_0 (text : str) (i depth : Z) (ins : bool) (sc : option char) :
  fmb_loop O text i depth ins sc = if i <? len text then OutOfFuel else Ok (-1).
Proof. reflexivity. Qed.

Lemma fmb_loop_S (fuel : nat) (text : str) (i depth : Z) (ins : bool)
    (sc : option char) :
  fmb_loop (S fuel) text i depth ins sc =
  if i <? len text then
    c <- getitem text i ;;
    qs <- quote_step text i c ins sc ;;
    let '(ins', sc') := qs in
    if negb ins' then
      if (c =? lbrace)%N then fmb_loop fuel text (i + 1) (depth + 1) ins' sc'
      else if (c =? rbrace)%N then
        if depth - 1 =? 0 then Ok i
        else fmb_loop fuel text (i + 1) (depth - 1) ins' sc'
      else fmb_loop fuel text (i + 1) depth ins' sc'
    else fmb_loop fuel text (i + 1) depth ins' sc'
  else Ok (-1).
Proof. reflexivity. Qed.

Lemma fmb_loop_total (text : str) (fuel : nat) :
  forall i depth in_string string_char,
    0 <= i -> (Z.to_nat (len text - i) <= fuel)%nat ->
    exists r,
      fmb_loop fuel text i depth in_string string_char = Ok r
      /\ (r = -1 \/ (i <= r < len text /\ getitem text r = Ok rbrace)).
Proof.
  induction fuel as [|fuel IH]; intros i depth ins sc Hi Hfuel.
  - rewrite fmb_loop_0. destruct (Z.ltb_spec i (len text)); [lia|]. eauto.
  - rewrite fmb_loop_S. destruct (Z.ltb_spec i (len text)); [|eauto].
    destruct (getitem_in_range text i) as [c [Hc _]]; [lia|].
    destruct (quote_cond_total text i c) as [q Hq]; [lia|].
    rewrite Hc. cbn [bind]. unfold quote_step. rewrite Hq. cbn [bind].
    assert (Hnext : forall d s sc',
      exists r, fmb_loop fuel text (i + 1) d s sc' = Ok r
        /\ (r = -1 \/ (i <= r < len text /\ getitem text r = Ok rbrace))).
    { intros d s sc'. destruct (IH (i + 1) d s sc') as [r [Hr Hp]]; [lia|lia|].
      exists r. split; [exact Hr|]. destruct Hp as [Hp|[Hp1 Hp2]]; [auto|right; split; [lia|auto]]. }
    destruct (if q then quote_update c ins sc else (ins, sc)) as [ins' sc'].
    destruct (negb ins'); [|apply Hnext].
    destruct (N.eqb_spec c lbrace); [apply Hnext|].
    destruct (N.eqb_spec c rbrace); [|apply Hnext].
    destruct (Z.eqb_spec (depth - 1) 0); [|apply Hnext].
    exists i. split; [reflexivity|]. right. split; [lia|]. subst c. exact Hc.
Qed.

Lemma find_matching_brace_range_aux (text : str) (start_pos : Z) :
  0 <= start_pos <= len text ->
  exists r,
    find_matching_brace text start_pos = Ok r
    /\ (r = -1 \/ (start_pos <= r < len text /\ getitem text r = Ok rbrace)).
Proof.
  intros H. unfold find_matching_brace.
  apply fmb_loop_total; lia.
Qed.

(** C10: for every text and every start index between 0 and the length of
    the text, find_matching_brace returns (it neither raises IndexError nor
    loops), and the value is -1 or an index j, start_pos <= j < len(text),
    at which the text has a closing brace. *)
Theorem find_matching_brace_range (text : str) (start_pos : Z) :
  0 <= start_pos <= len text ->
  exists r,
    find_matching_brace text start_pos = Ok r
    /\ (r = -1 \/ (start_pos <= r < len text /\ getitem text r = Ok rbrace)).
Proof.
  exact (find_matching_brace_range_aux text start_pos).
Qed.

Lemma find_matching_brace_range_witness :
  0 <= 0 <= len (lit "{a{b}c}d}")
  /\ exists r,
      find_matching_brace (lit "{a{b}c}d}") 0 = Ok r
      /\ (r = -1 \/ (0 <= r < len (lit "{a{b}c}d}")
                     /\ getitem (lit "{a{b}c}d}") r = Ok rbrace)).
Proof.
  split; [vm_compute; split; discriminate|].
  apply (find_matching_brace_range (lit "{a{b}c}d}") 0).
  vm_compute. split; discriminate.
Defined.

(** ** The scanner follows the quote-aware depth *)

Lemma quote_cond_spec (text : str) (k : nat) (c : char) :
  nth_error text k = Some c ->
  quote_cond text (Z.of_nat k) c
  = Ok (is_quote c && negb (preceded_by_backslash text k)).
Proof.
  intros Hc. unfold quote_cond. destruct (is_quote c); [|reflexivity].
  destruct k as [|k].
  - reflexivity.
  - destruct (Z.eqb_spec (Z.of_nat (S k)) 0); [lia|].
    assert (Hk : (k < List.length text)%nat).
    { assert (S k < List.length text)%nat by (apply nth_error_Some; congruence). lia. }
    destruct (nth_error text k) as [p|] eqn:Ep;
      [|apply nth_error_None in Ep; lia].
    replace (Z.of_nat (S k) - 1) with (Z.of_nat k) by lia.
    rewrite (getitem_nat _ _ _ Ep). simpl. rewrite Ep. reflexivity.
Qed.

Lemma quote_update_spec (text : str) (k : nat) (c : char) (q : option char) :
  nth_error text k = Some c ->
  (if is_quote c && negb (preceded_by_backslash text k)
   then quote_update c (is_some q) q else (is_some q, q))
  = (is_some (quote_next text k q), quote_next text k q).
Proof.
  intros Hc. unfold quote_next. rewrite Hc.
  destruct (is_quote c && negb (preceded_by_backslash text k)); [|reflexivity].
  unfold quote_update. destruct q as [o|]; simpl; [|reflexivity].
  destruct (c =? o)%N; reflexivity.
Qed.

Lemma quote_step_spec (text : str) (k : nat) (c : char) (q : option char) :
  nth_error text k = Some c ->
  quote_step text (Z.of_nat k) c (is_some q) q
  = Ok (is_some (quote_next text k q), quote_next text k q).
Proof.
  intros Hc. unfold quote_step.
  rewrite (quote_cond_spec _ _ _ Hc). cbn [bind].
  rewrite (quote_update_spec _ _ _ _ Hc). reflexivity.
Qed.

Lemma fmb_loop_step (text : str) (start n fuel : nat) (c : char) :
  nth_error text (start + n) = Some c ->
  fmb_loop (S fuel) text (Z.of_nat (start + n)) (depth_after text start n)
    (is_some (quote_after text start n)) (quote_after text start n)
  = if returns_at text start n then Ok (Z.of_nat (start + n))
    else fmb_loop fuel text (Z.of_nat (start + S n)) (depth_after text start (S n))
           (is_some (quote_after text start (S n))) (quote_after text start (S n)).
Proof.
  intros Hc. rewrite fmb_loop_S.
  assert (Hlt : (start + n < List.length text)%nat)
    by (apply nth_error_Some; congruence).
  destruct (Z.ltb_spec (Z.of_nat (start + n)) (len text));
    [|unfold len in *; lia].
  rewrite (getitem_nat _ _ _ Hc). cbn [bind].
  rewrite (quote_step_spec _ _ _ _ Hc). cbn [bind].
  replace (Z.of_nat (start + n) + 1) with (Z.of_nat (start + S n)) by lia.
  unfold returns_at. rewrite Hc.
  change (quote_after text start (S n))
    with (quote_next text (start + n) (quote_after text start n)).
  change (depth_after text start (S n))
    with (depth_after text start n
          + brace_delta text (start + n)
              (quote_next text (start + n) (quote_after text start n))).
  unfold brace_delta. rewrite Hc.
  destruct (quote_next text (start + n) (quote_after text start n)) as [o|];
    cbn [is_some negb].
  - rewrite Z.add_0_r. reflexivity.
  - destruct (N.eqb_spec c lbrace) as [El|Nl].
    + subst c. reflexivity.
    + destruct (N.eqb_spec c rbrace) as [Er|Nr]; cbn [andb].
      * replace (depth_after text start n + -1)
          with (depth_after text start n - 1) by lia.
        reflexivity.
      * rewrite Z.add_0_r. reflexivity.
Qed.

(** No position brings the depth back to zero: the scan reaches the end. *)
Lemma fmb_loop_exhausts (text : str) (start : nat) :
  forall (m n fuel : nat),
    (start + n + m = List.length text)%nat -> (m <= fuel)%nat ->
    (forall k, (n <= k < n + m)%nat -> returns_at text start k = false) ->
    fmb_loop fuel text (Z.of_nat (start + n)) (depth_after text start n)
      (is_some (quote_after text start n)) (quote_after text start n)
    = Ok (-1).
Proof.
  induction m as [|m IH]; intros n fuel Hlen Hfuel Hno.
  - destruct fuel; [rewrite fmb_loop_0|rewrite fmb_loop_S];
      (destruct (Z.ltb_spec (Z.of_nat (start + n)) (len text));
       [unfold len in *; lia|reflexivity]).
  - destruct fuel as [|fuel]; [lia|].
    destruct (nth_error text (start + n)) as [c|] eqn:Ec;
      [|apply nth_error_None in Ec; lia].
    rewrite (fmb_loop_step _ _ _ _ _ Ec), (Hno n) by lia.
    apply IH; [lia|lia|]. intros k Hk. apply Hno. lia.
Qed.

(** The scan returns at the first position that brings the depth to zero. *)
Lemma fmb_loop_first (text : str) (start : nat) :
  forall (m n fuel : nat),
    (List.length text - (start + n) <= fuel)%nat ->
    returns_at text start (n + m) = true ->
    (forall k, (n <= k < n + m)%nat -> returns_at text start k = false) ->
    fmb_loop fuel text (Z.of_nat (start + n)) (depth_after text start n)
      (is_some (quote_after text start n)) (quote_after text start n)
    = Ok (Z.of_nat (start + (n + m))).
Proof.
  induction m as [|m IH]; intros n fuel Hfuel Hret Hno.
  - rewrite Nat.add_0_r in *.
    assert (Hlt : (start + n < List.length text)%nat).
    { unfold returns_at in Hret.
      destruct (nth_error text (start + n)) eqn:E; [|discriminate].
      apply nth_error_Some. congruence. }
    destruct fuel as [|fuel]; [lia|].
    destruct (nth_error text (start + n)) as [c|] eqn:Ec;
      [|apply nth_error_None in Ec; lia].
    rewrite (fmb_loop_step _ _ _ _ _ Ec), Hret. reflexivity.
  - assert (Hlt : (start + (n + S m) < List.length text)%nat).
    { unfold returns_at in Hret.
      destruct (nth_error text (start + (n + S m))) eqn:E; [|discriminate].
      apply nth_error_Some. congruence. }
    destruct fuel as [|fuel]; [lia|].
    destruct (nth_error text (start + n)) as [c|] eqn:Ec;
      [|apply nth_error_None in Ec; lia].
    rewrite (fmb_loop_step _ _ _ _ _ Ec), (Hno n) by lia.
    replace (n + S m)%nat with (S n + m)%nat in * by lia.
    apply IH; [lia|exact Hret|]. intros k Hk. apply Hno. lia.
Qed.

Lemma find_matching_brace_first (text : str) (start m : nat) :
  returns_at text start m = true ->
  (forall k, (k < m)%nat -> returns_at text start k = false) ->
  find_matching_brace text (Z.of_nat start) = Ok (Z.of_nat (start + m)).
Proof.
  intros Hret Hno. unfold find_matching_brace.
  pose proof (fmb_loop_first text start m 0
                (Z.to_nat (len text - Z.of_nat start))) as H.
  rewrite Nat.add_0_r in H. simpl in H. apply H.
  - unfold len. lia.
  - exact Hret.
  - intros k Hk. apply Hno. lia.
Qed.

Lemma find_matching_brace_exhausts (text : str) (start : nat) :
  (forall k, returns_at text start k = false) ->
  find_matching_brace text (Z.of_nat start) = Ok (-1).
Proof.
  intros Hno. unfold find_matching_brace.
  destruct (le_lt_dec start (List.length text)) as [Hle|Hgt].
  - pose proof (fmb_loop_exhausts text start (List.length text - start) 0
                  (Z.to_nat (len text - Z.of_nat start))) as H.
    rewrite Nat.add_0_r in H. simpl in H. apply H.
    + lia.
    + unfold len. lia.
    + intros k _. apply Hno.
  - replace (Z.to_nat (len text - Z.of_nat start)) with O by (unfold len; lia).
    rewrite fmb_loop_0.
    destruct (Z.ltb_spec (Z.of_nat start) (len text));
      [unfold len in *; lia|reflexivity].
Qed.

(** ** Braces inside string literals *)




Lemma returns_at_depth (text : str) (start n : nat) :
  returns_at text start n = true -> depth_after text start (S n) = 0.
Proof.
  unfold returns_at.
  destruct (nth_error text (start + n)); [|discriminate].
  destruct (quote_after text start (S n)); [discriminate|].
  intros H. apply andb_true_iff in H. destruct H as [_ H].
  apply Z.eqb_eq in H. exact H.
Qed.










(** ** Well-formed input: the scanner finds the first return to depth zero *)





(** The buffer ends before the depth is back to zero: not found. *)
Lemma scanner_not_found (text : str) (start : nat) :
  (forall k, (start <= k < List.length text)%nat -> depth_upto text start k <> 0) ->
  find_matching_brace text (Z.of_nat start) = Ok (-1).
Proof.
  intros Hnz. apply find_matching_brace_exhausts. intros k.
  destruct (returns_at text start k) eqn:E; [|reflexivity].
  assert (Hlt : (start + k < List.length text)%nat).
  { unfold returns_at in E.
    destruct (nth_error text (start + k)) eqn:En; [|discriminate].
    apply nth_error_Some. congruence. }
  apply returns_at_depth in E. exfalso.
  apply (Hnz (start + k)%nat); [lia|].
  unfold depth_upto. replace (start + k - start)%nat with k by lia. exact E.
Qed.

(** ** Anchor search *)

Lemma starts_with_length (l s : str) :
  starts_with l s = true -> (List.length l <= List.length s)%nat.
Proof.
  revert s. induction l as [|a l IH]; intros [|b s] H; simpl in *;
    try discriminate; try lia.
  apply andb_true_iff in H. destruct H as [_ H]. apply IH in H. lia.
Qed.

Lemma starts_with_app (l s : str) : starts_with l (l ++ s) = true.
Proof.
  induction l as [|a l IH]; simpl; [reflexivity|].
  rewrite N.eqb_refl. exact IH.
Qed.

Lemma starts_with_firstn (l s : str) :
  starts_with l s = true -> firstn (List.length l) s = l.
Proof.
  revert s. induction l as [|a l IH]; intros [|b s] H; simpl in *;
    try reflexivity; try discriminate.
  apply andb_true_iff in H. destruct H as [Hab H].
  apply N.eqb_eq in Hab. subst b. rewrite (IH _ H). reflexivity.
Qed.

Lemma space_star_bounds (rest : str -> option nat) (w : nat) :
  (forall s n, rest s = Some n -> (w <= n <= List.length s)%nat) ->
  forall s n, space_star rest s = Some n -> (w <= n <= List.length s)%nat.
Proof.
  intros Hrest. induction s as [|c s IH]; intros n H; simpl in H.
  - apply Hrest in H. exact H.
  - destruct (is_space c).
    + destruct (space_star rest s) as [k|] eqn:E.
      * injection H as <-. specialize (IH k eq_refl). simpl. lia.
      * apply Hrest in H. exact H.
    + apply Hrest in H. exact H.
Qed.

Lemma match_here_bounds (p : regex) :
  forall s n, match_here p s = Some n -> (min_width p <= n <= List.length s)%nat.
Proof.
  induction p as [|[l|] p IH]; intros s n H; simpl in *.
  - injection H as <-. lia.
  - destruct (starts_with l s) eqn:El; [|discriminate].
    apply starts_with_length in El.
    destruct (match_here p (skipn (List.length l) s)) as [k|] eqn:E;
      [|discriminate].
    injection H as <-. apply IH in E. rewrite length_skipn in E. lia.
  - exact (space_star_bounds _ _ IH s n H).
Qed.

Lemma search_from_sound (p : regex) :
  forall s pos m,
    search_from p s pos = Some m ->
    exists k n,
      m_start m = pos + Z.of_nat k /\ m_end m = pos + Z.of_nat k + Z.of_nat n
      /\ (k <= List.length s)%nat
      /\ match_here p (skipn k s) = Some n
      /\ forall k', (k' < k)%nat -> match_here p (skipn k' s) = None.
Proof.
  induction s as [|c s IH]; intros pos m H; simpl in H.
  - destruct (match_here p []) as [n|] eqn:E; [|discriminate].
    injection H as <-. exists O, n. simpl.
    repeat split; try lia. exact E.
  - destruct (match_here p (c :: s)) as [n|] eqn:E.
    + injection H as <-. exists O, n. simpl.
      repeat split; try lia. exact E.
    + destruct (IH _ _ H) as [k [n [H1 [H2 [H3 [H4 H5]]]]]].
      exists (S k), n. simpl. repeat split; try lia; [exact H4|].
      intros [|k'] Hk; [exact E|]. simpl. apply H5. lia.
Qed.

Lemma search_from_none (p : regex) :
  forall s pos,
    search_from p s pos = None ->
    forall k, (k <= List.length s)%nat -> match_here p (skipn k s) = None.
Proof.
  induction s as [|c s IH]; intros pos H k Hk; simpl in H.
  - destruct (match_here p []) eqn:E; [discriminate|].
    destruct k; simpl in *; [exact E|lia].
  - destruct (match_here p (c :: s)) eqn:E; [discriminate|].
    destruct k as [|k]; [exact E|]. simpl. apply (IH _ H). simpl in Hk. lia.
Qed.

Lemma search_from_first (p : regex) (t : str) (n : nat) :
  match_here p t = Some n ->
  forall pre pos,
    (forall k, (k < List.length pre)%nat -> match_here p (skipn k (pre ++ t)) = None) ->
    search_from p (pre ++ t) pos
    = Some {| m_start := pos + len pre; m_end := pos + len pre + Z.of_nat n |}.
Proof.
  intros Hm. induction pre as [|c pre IH]; intros pos Hno.
  - simpl. destruct t; simpl; rewrite Hm; unfold len; simpl;
      rewrite ?Z.add_0_r; reflexivity.
  - assert (H0 : match_here p (c :: pre ++ t) = None)
      by (apply (Hno O); simpl; lia).
    simpl. rewrite H0.
    rewrite IH.
    + unfold len. simpl List.length. do 2 f_equal; lia.
    + intros k Hk. apply (Hno (S k)). simpl. lia.
Qed.

(** A match of an anchor ends inside the text, after at least the literal
    characters of the pattern. *)
Lemma re_search_bounds (p : regex) (content : str) (m : re_match) :
  re_search p content = Some m ->
  Z.of_nat (min_width p) <= m_end m <= len content.
Proof.
  intros H. apply search_from_sound in H.
  destruct H as [k [n [_ [He [Hk [Hm _]]]]]].
  apply match_here_bounds in Hm. rewrite length_skipn in Hm.
  unfold len. lia.
Qed.

(** ** Slices inside the bounds *)

Lemma slice_nat (t : str) (a b : nat) :
  (a <= b <= List.length t)%nat ->
  slice t (Z.of_nat a) (Z.of_nat b) = firstn (b - a) (skipn a t).
Proof.
  intros H. unfold slice, clamp.
  destruct (Z.ltb_spec (Z.of_nat a) 0); [lia|].
  destruct (Z.ltb_spec (Z.of_nat b) 0); [lia|].
  unfold len. rewrite !Z.min_l by lia.
  rewrite Nat2Z.id. f_equal. lia.
Qed.

Lemma skipn_app_length (pre t : str) (k : nat) :
  skipn (List.length pre + k) (pre ++ t) = skipn k t.
Proof.
  induction pre as [|c pre IH]; simpl; [reflexivity|exact IH].
Qed.

Lemma skipn_length_app (pre t : str) : skipn (List.length pre) (pre ++ t) = t.
Proof.
  induction pre as [|c pre IH]; simpl; [reflexivity|exact IH].
Qed.

(** ** The scan does not depend on the text before the start index *)

Lemma nth_error_shift (pre t : str) (k : nat) :
  nth_error (pre ++ t) (List.length pre + k) = nth_error t k.
Proof.
  rewrite nth_error_app2 by lia. f_equal. lia.
Qed.

Lemma preceded_shift (pre t : str) (k : nat) :
  (1 <= k)%nat ->
  preceded_by_backslash (pre ++ t) (List.length pre + k) = preceded_by_backslash t k.
Proof.
  intros Hk. destruct k as [|k]; [lia|].
  replace (List.length pre + S k)%nat with (S (List.length pre + k)) by lia.
  simpl. rewrite nth_error_shift. reflexivity.
Qed.

Lemma quote_next_shift (pre t : str) (k : nat) (q : option char) :
  (1 <= k)%nat ->
  quote_next (pre ++ t) (List.length pre + k) q = quote_next t k q.
Proof.
  intros Hk. unfold quote_next.
  rewrite nth_error_shift, preceded_shift by exact Hk. reflexivity.
Qed.

Lemma quote_after_shift (pre t : str) (s : nat) :
  (1 <= s)%nat ->
  forall n, quote_after (pre ++ t) (List.length pre + s) n = quote_after t s n.
Proof.
  intros Hs. induction n as [|n IH]; simpl; [reflexivity|].
  rewrite IH, <- Nat.add_assoc. apply quote_next_shift. lia.
Qed.

Lemma depth_after_shift (pre t : str) (s : nat) :
  (1 <= s)%nat ->
  forall n, depth_after (pre ++ t) (List.length pre + s) n = depth_after t s n.
Proof.
  intros Hs. induction n as [|n IH]; [reflexivity|].
  change (depth_after (pre ++ t) (List.length pre + s) (S n))
    with (depth_after (pre ++ t) (List.length pre + s) n
          + brace_delta (pre ++ t) (List.length pre + s + n)
              (quote_after (pre ++ t) (List.length pre + s) (S n))).
  rewrite IH, quote_after_shift by exact Hs.
  unfold brace_delta at 1. rewrite <- Nat.add_assoc, nth_error_shift.
  reflexivity.
Qed.

Lemma returns_at_shift (pre t : str) (s n : nat) :
  (1 <= s)%nat ->
  returns_at (pre ++ t) (List.length pre + s) n = returns_at t s n.
Proof.
  intros Hs. unfold returns_at.
  rewrite <- Nat.add_assoc, nth_error_shift.
  rewrite quote_after_shift, depth_after_shift by exact Hs. reflexivity.
Qed.

(** The three brace extractors, when the anchor ends at position [s + 1] of
    [t] and the scan from [s] first returns at [s + m]. *)
Lemma extract_braces_span (pre t : str) (s m : nat) (a : re_match) :
  (1 <= s)%nat ->
  m_end a = len pre + Z.of_nat (S s) ->
  returns_at t s m = true ->
  (forall k, (k < m)%nat -> returns_at t s k = false) ->
  extract_braces (pre ++ t) a = Ok (Some (firstn (m - 1) (skipn (S s) t))).
Proof.
  intros Hs He Hret Hno. unfold extract_braces. rewrite He.
  replace (len pre + Z.of_nat (S s) - 1)
    with (Z.of_nat (List.length pre + s)) by (unfold len; lia).
  rewrite (find_matching_brace_first (pre ++ t) (List.length pre + s) m).
  - cbn [bind].
    destruct (Z.eqb_spec (Z.of_nat (List.length pre + s + m)) (-1)); [lia|].
    assert (Hlt : (s + m < List.length t)%nat).
    { unfold returns_at in Hret.
      destruct (nth_error t (s + m)) eqn:E; [|discriminate].
      apply nth_error_Some. congruence. }
    destruct m as [|m].
    + replace (Z.of_nat (List.length pre + s) + 1)
        with (Z.of_nat (S (List.length pre + s))) by lia.
      unfold slice, clamp.
      destruct (Z.ltb_spec (Z.of_nat (S (List.length pre + s))) 0); [lia|].
      destruct (Z.ltb_spec (Z.of_nat (List.length pre + s + 0)) 0); [lia|].
      unfold len. rewrite length_app. rewrite !Z.min_l by lia.
      replace (Z.to_nat (Z.of_nat (List.length pre + s + 0)
                         - Z.of_nat (S (List.length pre + s)))) with O by lia.
      reflexivity.
    + replace (Z.of_nat (List.length pre + s) + 1)
        with (Z.of_nat (List.length pre + S s)) by lia.
      rewrite slice_nat by (rewrite length_app; lia).
      rewrite skipn_app_length.
      do 3 f_equal. lia.
  - rewrite returns_at_shift by exact Hs. exact Hret.
  - intros k Hk. rewrite returns_at_shift by exact Hs. apply Hno, Hk.
Qed.

(** ** extract_data on the scenario of the design *)

(** C8, as amended: for every buffer that contains the text
    data() { return { count: 0 }; } and in which no match of the data anchor
    starts before that text, extract_data returns the characters strictly
    between the braces of the returned object: count: 0 with the space
    before and the space after it. *)
Theorem extract_data_first_anchor (pre post : str) :
  (forall k, (k < List.length pre)%nat ->
     match_here data_pattern
       (skipn k (pre ++ lit "data() { return { count: 0 }; }" ++ post)) = None) ->
  extract_data (pre ++ lit "data() { return { count: 0 }; }" ++ post)
  = Ok (Some (lit " count: 0 ")).
Proof.
  intros Hno. unfold extract_data, re_search.
  rewrite (search_from_first data_pattern _ 17); [|reflexivity|exact Hno].
  rewrite (extract_braces_span pre _ 16 11).
  - reflexivity.
  - lia.
  - cbn [m_end]. lia.
  - reflexivity.
  - intros k Hk.
    do 11 (destruct k as [|k]; [reflexivity|]). lia.
Qed.

Lemma extract_data_first_anchor_witness :
  extract_data (lit "x = 1; " ++ lit "data() { return { count: 0 }; }" ++ lit " y")
  = Ok (Some (lit " count: 0 ")).
Proof.
  apply (extract_data_first_anchor (lit "x = 1; ") (lit " y")).
  intros k Hk.
  do 7 (destruct k as [|k]; [reflexivity|]).
  simpl in Hk. lia.
Defined.

(** C8 as stated fails: an earlier match of the data anchor is the one
    extract_data takes. *)
Lemma extract_data_counterexample :
  extract_data
    (lit "data() { return { a: 1 }; } " ++ lit "data() { return { count: 0 }; }" ++ [])
  = Ok (Some (lit " a: 1 "))
  /\ extract_data
       (lit "data() { return { a: 1 }; } " ++ lit "data() { return { count: 0 }; }" ++ [])
     <> Ok (Some (lit " count: 0 ")).
Proof.
  split; [reflexivity|]. vm_compute. discriminate.
Qed.

(** ** The matching brace *)

(** ** Quote tracking *)

Lemma is_quote_not_backslash (q : char) :
  is_quote q = true -> (q =? backslash)%N = false.
Proof.
  unfold is_quote. intros H.
  destruct (N.eqb_spec q dquote); [subst; reflexivity|].
  destruct (N.eqb_spec q squote); [subst; reflexivity|].
  destruct (N.eqb_spec q backtick); [subst; reflexivity|discriminate].
Qed.

Lemma is_quote_not_brace (q : char) :
  is_quote q = true -> q <> lbrace /\ q <> rbrace.
Proof.
  intros H. split; intros ->; discriminate.
Qed.


Section EscapedQuote.

Variables (q : char) (body rest : str).

Hypothesis q_quote : is_quote q = true.

(** Every occurrence of the delimiter inside the string is escaped. *)
Hypothesis body_escaped :
  forall k, nth_error body k = Some q -> preceded_by_backslash body k = true.

(** The string does not end with a backslash. *)
Hypothesis body_end : nth_error body (List.length body - 1) <> Some backslash.

Let t : str := lbrace :: q :: body ++ q :: rbrace :: rest.






End EscapedQuote.






(** ** The template scan, one turn at a time *)

Lemma slice_nonneg (t : str) (a b : Z) :
  0 <= a <= b ->
  slice t a b = firstn (Z.to_nat (b - a)) (skipn (Z.to_nat a) t).
Proof.
  intros H. unfold slice, clamp.
  destruct (Z.ltb_spec a 0); [lia|]. destruct (Z.ltb_spec b 0); [lia|].
  unfold len.
  destruct (Z_le_gt_dec b (Z.of_nat (List.length t))) as [Hb|Hb].
  - rewrite !Z.min_l by lia. reflexivity.
  - rewrite (Z.min_r b) by lia.
    destruct (Z_le_gt_dec a (Z.of_nat (List.length t))) as [Ha|Ha].
    + rewrite Z.min_l by lia.
      rewrite !firstn_all2; [reflexivity| |]; rewrite length_skipn; lia.
    + rewrite Z.min_r by lia.
      rewrite !skipn_all2 by lia. rewrite !firstn_nil. reflexivity.
Qed.

Lemma skipn_cons_nth (t : str) (k : nat) (c : char) :
  nth_error t k = Some c -> skipn k t = c :: skipn (S k) t.
Proof.
  revert k. induction t as [|a t IH]; intros [|k] H; simpl in *;
    try discriminate.
  - injection H as <-. reflexivity.
  - apply IH, H.
Qed.

Lemma skipn_nil_nth (t : str) (k : nat) :
  nth_error t k = None -> skipn k t = [].
Proof.
  intros H. apply skipn_all2. apply nth_error_None. exact H.
Qed.

Lemma str_eqb_eq (a b : str) : str_eqb a b = true <-> a = b.
Proof.
  unfold str_eqb. destruct (list_eq_dec N.eq_dec a b); split;
    congruence || discriminate.
Qed.

Lemma pair_test (content : str) (i : Z) :
  0 <= i < len content ->
  str_eqb (slice content i (i + 2)) [backslash; backtick] = true
  <-> getitem content i = Ok backslash /\ getitem content (i + 1) = Ok backtick.
Proof.
  intros Hi. rewrite str_eqb_eq, slice_nonneg by lia.
  replace (Z.to_nat (i + 2 - i)) with 2%nat by lia.
  destruct (getitem_in_range content i Hi) as [c [Hc Hn]].
  rewrite (skipn_cons_nth _ _ _ Hn), Hc.
  destruct (Z_lt_ge_dec (i + 1) (len content)) as [H1|H1].
  - destruct (getitem_in_range content (i + 1)) as [d [Hd Hm]]; [lia|].
    replace (Z.to_nat (i + 1)) with (S (Z.to_nat i)) in Hm by lia.
    rewrite (skipn_cons_nth _ _ _ Hm), Hd. cbn [firstn].
    split.
    + intros E. injection E as -> ->. auto.
    + intros [E1 E2]. congruence.
  - rewrite skipn_nil_nth
      by (apply nth_error_None; unfold len in *; lia).
    cbn [firstn].
    split; [discriminate|]. intros [_ E2]. exfalso.
    unfold getitem in E2.
    destruct (Z.ltb_spec (i + 1) 0); [lia|].
    destruct (Z.ltb_spec (i + 1) (len content)); [lia|].
    rewrite andb_false_r in E2. discriminate.
Qed.

Lemma closing_cond_spec (content : str) (i : Z) :
  1 <= i < len content ->
  exists b,
    closing_cond content i = Ok b
    /\ (b = true <->
        getitem content i = Ok backtick /\ getitem content (i - 1) <> Ok backslash).
Proof.
  intros Hi. unfold closing_cond.
  destruct (getitem_in_range content i) as [c [Hc _]]; [lia|].
  destruct (getitem_in_range content (i - 1)) as [p [Hp _]]; [lia|].
  rewrite Hc. cbn [bind].
  destruct (N.eqb_spec c backtick) as [E|E].
  - rewrite Hp. cbn [bind]. eexists. split; [reflexivity|].
    subst c. destruct (N.eqb_spec p backslash) as [Ep|Ep]; simpl.
    + subst p. split; [discriminate|]. intros [_ H]. contradiction.
    + split; [|reflexivity]. intros _. split; [reflexivity|congruence].
  - exists false. split; [reflexivity|].
    split; [discriminate|]. intros [H _]. congruence.
Qed.

Lemma template_step_cases (content : str) (start i : Z) :
  1 <= i < len content ->
  (getitem content i = Ok backslash /\ getitem content (i + 1) = Ok backtick
   /\ template_step content start i = Ok (Next (i + 2)))
  \/ (closing_backtick content i
      /\ template_step content start i
         = Ok (Stop (unescape (slice content start i))))
  \/ (~ closing_backtick content i
      /\ ~ (getitem content i = Ok backslash /\ getitem content (i + 1) = Ok backtick)
      /\ template_step content start i = Ok (Next (i + 1))).
Proof.
  intros Hi. unfold template_step.
  pose proof (pair_test content i) as Hpair.
  destruct (str_eqb (slice content i (i + 2)) [backslash; backtick]).
  - left. destruct Hpair as [Hp _]; [lia|]. destruct (Hp eq_refl). auto.
  - right.
    assert (Hnp : ~ (getitem content i = Ok backslash
                     /\ getitem content (i + 1) = Ok backtick)).
    { intros H. apply Hpair in H; [discriminate|lia]. }
    destruct (closing_cond_spec content i Hi) as [b [Hb Hiff]].
    rewrite Hb. cbn [bind]. unfold closing_backtick.
    destruct b; simpl.
    + destruct (lookahead content i) eqn:El.
      * left. destruct Hiff as [H _]. destruct (H eq_refl). auto.
      * right. split; [|auto]. intros [_ [_ H]]. discriminate.
    + right. split; [|auto]. intros [H1 [H2 _]].
      destruct Hiff as [_ H]. discriminate H. auto.
Qed.

Lemma template_loop_0 (content : str) (start i : Z) :
  template_loop O content start i
  = if i <? len content then OutOfFuel else Ok None.
Proof. reflexivity. Qed.

Lemma template_loop_S (fuel : nat) (content : str) (start i : Z) :
  template_loop (S fuel) content start i
  = if i <? len content then
      t <- template_step content start i ;;
      match t with
      | Stop template => Ok (Some template)
      | Next i' => template_loop fuel content start i'
      end
    else Ok None.
Proof. reflexivity. Qed.

Lemma template_loop_end (fuel : nat) (content : str) (start i : Z) :
  len content <= i -> template_loop fuel content start i = Ok None.
Proof.
  intros H. destruct fuel; [rewrite template_loop_0|rewrite template_loop_S];
    (destruct (Z.ltb_spec i (len content)); [lia|reflexivity]).
Qed.

(** The result of the scan does not depend on the fuel, once there is
    enough of it. *)
Lemma template_loop_fuel (content : str) (start : Z) :
  forall (f1 f2 : nat) (i : Z),
    1 <= i ->
    (Z.to_nat (len content - i) <= f1)%nat ->
    (Z.to_nat (len content - i) <= f2)%nat ->
    template_loop f1 content start i = template_loop f2 content start i.
Proof.
  induction f1 as [|f1 IH]; intros f2 i Hi H1 H2.
  - rewrite !template_loop_end by lia. reflexivity.
  - destruct (Z_lt_ge_dec i (len content)) as [Hlt|Hge];
      [|rewrite !template_loop_end by lia; reflexivity].
    destruct f2 as [|f2]; [lia|].
    rewrite !template_loop_S.
    destruct (Z.ltb_spec i (len content)); [|lia].
    destruct (template_step_cases content start i) as
      [[_ [_ E]]|[[_ E]|[_ [_ E]]]]; [lia| | |]; rewrite E; cbn [bind].
    + apply IH; lia.
    + reflexivity.
    + apply IH; lia.
Qed.

Lemma template_scan_next (content : str) (start i j : Z) :
  1 <= i < len content -> i < j ->
  template_step content start i = Ok (Next j) ->
  template_scan content start i = template_scan content start j.
Proof.
  intros Hi Hj E. unfold template_scan.
  destruct (Z.to_nat (len content - i)) as [|f] eqn:Ef; [lia|].
  rewrite template_loop_S.
  destruct (Z.ltb_spec i (len content)); [|lia].
  rewrite E. cbn [bind]. apply template_loop_fuel; lia.
Qed.

Lemma template_scan_stop (content : str) (start i : Z) (t : str) :
  1 <= i < len content ->
  template_step content start i = Ok (Stop t) ->
  template_scan content start i = Ok (Some t).
Proof.
  intros Hi E. unfold template_scan.
  destruct (Z.to_nat (len content - i)) as [|f] eqn:Ef; [lia|].
  rewrite template_loop_S.
  destruct (Z.ltb_spec i (len content)); [|lia].
  rewrite E. reflexivity.
Qed.

Lemma getitem_Ok_range (t : str) (i : Z) (c : char) :
  0 <= i -> getitem t i = Ok c -> i < len t.
Proof.
  intros Hi H. unfold getitem in H.
  destruct (Z.ltb_spec i 0); [lia|].
  destruct (Z.ltb_spec i (len t)); [assumption|].
  rewrite andb_false_r in H. discriminate.
Qed.

Lemma contains_nth (c : char) (t : str) :
  contains c t = true <-> exists n, nth_error t n = Some c.
Proof.
  unfold contains. rewrite existsb_exists. split.
  - intros [x [Hin Hx]]. apply N.eqb_eq in Hx. subst x.
    apply In_nth_error, Hin.
  - intros [n Hn]. exists c. split; [eapply nth_error_In, Hn|apply N.eqb_refl].
Qed.

Lemma contains_window (c : char) (content : str) (i : Z) :
  0 <= i ->
  contains c (slice content (i + 1) (i + 10)) = true
  <-> exists k, 1 <= k <= 9 /\ getitem content (i + k) = Ok c.
Proof.
  intros Hi. rewrite slice_nonneg by lia.
  replace (Z.to_nat (i + 10 - (i + 1))) with 9%nat by lia.
  rewrite contains_nth. split.
  - intros [n Hn]. rewrite nth_error_firstn in Hn.
    destruct (Nat.ltb_spec n 9); [|discriminate].
    rewrite nth_error_skipn in Hn.
    exists (Z.of_nat n + 1). split; [lia|].
    replace (i + (Z.of_nat n + 1)) with (Z.of_nat (Z.to_nat (i + 1) + n)) by lia.
    apply getitem_nat, Hn.
  - intros [k [Hk Hg]]. exists (Z.to_nat (k - 1)).
    rewrite nth_error_firstn.
    destruct (Nat.ltb_spec (Z.to_nat (k - 1)) 9); [|lia].
    rewrite nth_error_skipn. apply getitem_Ok_nat.
    replace (Z.of_nat (Z.to_nat (i + 1) + Z.to_nat (k - 1))) with (i + k) by lia.
    exact Hg.
Qed.

Lemma lookahead_spec (content : str) (i : Z) :
  0 <= i ->
  lookahead content i = true
  <-> exists k, 1 <= k <= 9
        /\ (getitem content (i + k) = Ok comma \/ getitem content (i + k) = Ok rbrace).
Proof.
  intros Hi. unfold lookahead. rewrite orb_true_iff.
  rewrite !contains_window by exact Hi. split.
  - intros [[k [Hk H]]|[k [Hk H]]]; exists k; auto.
  - intros [k [Hk [H|H]]]; [left|right]; exists k; auto.
Qed.

(** The scan stops at the first accepted backtick at or after [i]. *)
Lemma template_scan_found (content : str) (start : Z) :
  forall (n : nat) (i j : Z),
    (Z.to_nat (j - i) <= n)%nat -> 1 <= i <= j ->
    closing_backtick content j ->
    exists k,
      i <= k <= j /\ closing_backtick content k
      /\ template_scan content start i
         = Ok (Some (unescape (slice content start k))).
Proof.
  induction n as [|n IH]; intros i j Hn Hij Hj.
  - assert (i = j) by lia. subst j. exists i.
    assert (Hlt : i < len content).
    { destruct Hj as [Hc _]. apply (getitem_Ok_range content _ backtick); [lia|exact Hc]. }
    split; [lia|]. split; [exact Hj|].
    destruct (template_step_cases content start i) as
      [[Hb [_ _]]|[[_ E]|[Hno _]]]; [lia| | |].
    + destruct Hj as [Hc _]. rewrite Hc in Hb. discriminate.
    + apply template_scan_stop; [lia|exact E].
    + contradiction.
  - assert (Hlt : j < len content).
    { destruct Hj as [Hc _]. apply (getitem_Ok_range content _ backtick); [lia|exact Hc]. }
    destruct (template_step_cases content start i) as
      [[Hb [Ht E]]|[[Hi E]|[Hno [_ E]]]]; [lia| | |].
    + assert (i <> j).
      { intros ->. destruct Hj as [Hc _]. rewrite Hc in Hb. discriminate. }
      assert (i + 1 <> j).
      { intros <-. destruct Hj as [_ [Hp _]].
        replace (i + 1 - 1) with i in Hp by lia. contradiction. }
      destruct (IH (i + 2) j) as [k [Hk [Hck Hs]]]; [lia|lia|exact Hj|].
      exists k. split; [lia|]. split; [exact Hck|].
      rewrite (template_scan_next content start i (i + 2)); [exact Hs|lia|lia|exact E].
    + exists i. split; [lia|]. split; [exact Hi|].
      apply template_scan_stop; [lia|exact E].
    + assert (i <> j) by (intros ->; contradiction).
      destruct (IH (i + 1) j) as [k [Hk [Hck Hs]]]; [lia|lia|exact Hj|].
      exists k. split; [lia|]. split; [exact Hck|].
      rewrite (template_scan_next content start i (i + 1)); [exact Hs|lia|lia|exact E].
Qed.

(** Without an accepted backtick the scan reaches the end of the text. *)
Lemma template_scan_absent (content : str) (start : Z) :
  forall (n : nat) (i : Z),
    (Z.to_nat (len content - i) <= n)%nat -> 1 <= i ->
    (forall j, i <= j < len content -> ~ closing_backtick content j) ->
    template_scan content start i = Ok None.
Proof.
  induction n as [|n IH]; intros i Hn Hi Hno.
  - unfold template_scan. apply template_loop_end. lia.
  - destruct (Z_lt_ge_dec i (len content)) as [Hlt|Hge];
      [|unfold template_scan; apply template_loop_end; lia].
    destruct (template_step_cases content start i) as
      [[_ [_ E]]|[[Hc _]|[_ [_ E]]]]; [lia| | |].
    + rewrite (template_scan_next content start i (i + 2)); [|lia|lia|exact E].
      apply IH; [lia|lia|]. intros j Hj. apply Hno. lia.
    + exfalso. apply (Hno i); [lia|exact Hc].
    + rewrite (template_scan_next content start i (i + 1)); [|lia|lia|exact E].
      apply IH; [lia|lia|]. intros j Hj. apply Hno. lia.
Qed.

(** C3 as stated fails: a template key followed by a literal between plain
    backticks is not found, the anchor asks for a backslash before the
    opening backtick. *)
Lemma extract_template_counterexample :
  extract_template (lit "template: `hi`,") = Ok None.
Proof. reflexivity. Qed.

(** C3, as amended: for every buffer in which the template anchor is found
    (the template key, optional whitespace, then a backslash followed by a
    backtick) and in which some backtick at or after the end of the anchor
    is not preceded by a backslash and has a comma or a closing brace among
    the nine characters after it, extract_template returns a present result:
    the unescaped text between the anchor and the first such backtick. *)
Theorem extract_template_present (content : str) (a : re_match) (j : Z) :
  re_search template_pattern content = Some a ->
  m_end a <= j ->
  closing_backtick content j ->
  exists k,
    m_end a <= k <= j /\ closing_backtick content k
    /\ extract_template content
       = Ok (Some (unescape (slice content (m_end a) k))).
Proof.
  intros Hs Hj Hc. unfold extract_template. rewrite Hs.
  pose proof (re_search_bounds _ _ _ Hs) as Hb. simpl in Hb.
  apply (template_scan_found content (m_end a) (Z.to_nat (j - m_end a)));
    [lia|lia|exact Hc].
Qed.

Lemma extract_template_present_witness :
  exists k,
    12 <= k <= 14 /\ closing_backtick (lit "template: \`hi`,") k
    /\ extract_template (lit "template: \`hi`,")
       = Ok (Some (unescape (slice (lit "template: \`hi`,") 12 k))).
Proof.
  apply (extract_template_present (lit "template: \`hi`,")
           {| m_start := 0; m_end := 12 |} 14).
  - reflexivity.
  - simpl. lia.
  - unfold closing_backtick. split; [reflexivity|].
    split; [vm_compute; discriminate|reflexivity].
Defined.

(** C6: at a position of the scan of extract_template, a backtick that is
    not preceded by a backslash ends the template if and only if a comma or a
    closing brace is among the nine characters after it; when none is, the
    scan goes on at the next position, the backtick being content; a
    backslash followed by a backtick is stepped over, two positions at once,
    and does not end the scan. *)
Theorem template_backtick_rule (content : str) (start i : Z) :
  1 <= i < len content ->
  (getitem content i = Ok backtick ->
   getitem content (i - 1) <> Ok backslash ->
   ((exists t, template_step content start i = Ok (Stop t))
    <-> exists k, 1 <= k <= 9
          /\ (getitem content (i + k) = Ok comma
              \/ getitem content (i + k) = Ok rbrace))
   /\ (lookahead content i = true ->
       template_scan content start i
       = Ok (Some (unescape (slice content start i))))
   /\ (lookahead content i = false ->
       template_step content start i = Ok (Next (i + 1))
       /\ template_scan content start i = template_scan content start (i + 1)))
  /\ (getitem content i = Ok backslash ->
      getitem content (i + 1) = Ok backtick ->
      template_step content start i = Ok (Next (i + 2))
      /\ template_scan content start i = template_scan content start (i + 2)).
Proof.
  intros Hi. split.
  - intros Hc Hp. rewrite <- lookahead_spec by lia.
    destruct (template_step_cases content start i Hi) as
      [[Hb _]|[[[_ [_ Hl]] E]|[Hno [_ E]]]].
    + rewrite Hc in Hb. discriminate.
    + split; [|split].
      * split; [intros _; exact Hl|intros _; eauto].
      * intros _. apply template_scan_stop; [lia|exact E].
      * intros Hf. rewrite Hl in Hf. discriminate.
    + assert (Hl : lookahead content i = false).
      { destruct (lookahead content i) eqn:El; [|reflexivity].
        exfalso. apply Hno. unfold closing_backtick. auto. }
      split; [|split].
      * split; [|intros Ht; rewrite Hl in Ht; discriminate].
        intros [t Ht]. rewrite E in Ht. discriminate.
      * intros Ht. rewrite Hl in Ht. discriminate.
      * intros _. split; [exact E|].
        apply template_scan_next; [lia|lia|exact E].
  - intros Hb Ht.
    destruct (template_step_cases content start i Hi) as
      [[_ [_ E]]|[[[Hc _] _]|[_ [Hno _]]]].
    + split; [exact E|]. apply template_scan_next; [lia|lia|exact E].
    + rewrite Hc in Hb. discriminate.
    + exfalso. apply Hno. auto.
Qed.

Lemma template_backtick_rule_witness :
  (getitem (lit "template: \`a`b`, x") 13 = Ok backtick ->
   getitem (lit "template: \`a`b`, x") (13 - 1) <> Ok backslash ->
   ((exists t, template_step (lit "template: \`a`b`, x") 12 13 = Ok (Stop t))
    <-> exists k, 1 <= k <= 9
          /\ (getitem (lit "template: \`a`b`, x") (13 + k) = Ok comma
              \/ getitem (lit "template: \`a`b`, x") (13 + k) = Ok rbrace))
   /\ (lookahead (lit "template: \`a`b`, x") 13 = true ->
       template_scan (lit "template: \`a`b`, x") 12 13
       = Ok (Some (unescape (slice (lit "template: \`a`b`, x") 12 13))))
   /\ (lookahead (lit "template: \`a`b`, x") 13 = false ->
       template_step (lit "template: \`a`b`, x") 12 13 = Ok (Next (13 + 1))
       /\ template_scan (lit "template: \`a`b`, x") 12 13
          = template_scan (lit "template: \`a`b`, x") 12 (13 + 1)))
  /\ (getitem (lit "template: \`a`b`, x") 13 = Ok backslash ->
      getitem (lit "template: \`a`b`, x") (13 + 1) = Ok backtick ->
      template_step (lit "template: \`a`b`, x") 12 13 = Ok (Next (13 + 2))
      /\ template_scan (lit "template: \`a`b`, x") 12 13
         = template_scan (lit "template: \`a`b`, x") 12 (13 + 2)).
Proof.
  apply (template_backtick_rule (lit "template: \`a`b`, x") 12 13).
  vm_compute. split; [discriminate|reflexivity].
Defined.

Example template_ex3 :
  extract_template (lit "template: \`a`b`, x") = Ok (Some (lit "a")).
Proof. reflexivity. Qed.

Example template_ex4 :
  extract_template (lit "template: \`a` + b + `c`, x") = Ok (Some (lit "a` + b + ")).
Proof. reflexivity. Qed.

(** ** Unescaping undoes escaping *)

Lemma replace_match (a b : char) (new s : str) :
  replace (a :: b :: s) [a; b] new = new ++ replace s [a; b] new.
Proof.
  unfold replace. cbn [replace_from starts_with].
  rewrite !N.eqb_refl. reflexivity.
Qed.

Lemma replace_skip (old new : str) (c : char) (s : str) :
  starts_with old (c :: s) = false ->
  replace (c :: s) old new = c :: replace s old new.
Proof.
  intros H. unfold replace. cbn [replace_from]. rewrite H. reflexivity.
Qed.

Lemma escape_with_cons (special : char -> bool) (c : char) (s : str) :
  escape_with special (c :: s)
  = (if special c then [backslash; c] else [c]) ++ escape_with special s.
Proof. reflexivity. Qed.

Lemma escape_with_app (special : char -> bool) (s1 s2 : str) :
  escape_with special (s1 ++ s2)
  = escape_with special s1 ++ escape_with special s2.
Proof. unfold escape_with. apply flat_map_app. Qed.

Lemma escape_with_none (s : str) : escape_with (fun _ => false) s = s.
Proof.
  induction s as [|c s IH]; [reflexivity|].
  rewrite escape_with_cons, IH. reflexivity.
Qed.

(** Escaped text never begins with a bare special character. *)
Lemma escape_with_head (special : char -> bool) (x : char) (s : str) :
  special x = true -> x <> backslash ->
  starts_with [x] (escape_with special s) = false.
Proof.
  intros Hx Hne. destruct s as [|c s]; [reflexivity|].
  rewrite escape_with_cons. destruct (special c) eqn:Ec; cbn [app starts_with].
  - destruct (N.eqb_spec x backslash); [contradiction|reflexivity].
  - destruct (N.eqb_spec x c); [congruence|reflexivity].
Qed.

Lemma replace_escape_with (special : char -> bool) (x : char) (s : str) :
  special x = false -> special backslash = false -> x <> backslash ->
  replace (escape_with (fun c => (c =? x)%N || special c) s) [backslash; x] [x]
  = escape_with special s.
Proof.
  intros Hx Hb Hne. induction s as [|c s IH]; [reflexivity|].
  rewrite !escape_with_cons.
  destruct (N.eqb_spec c x) as [E|E]; cbn [orb].
  - subst c. rewrite Hx. cbn [app]. rewrite replace_match, IH. reflexivity.
  - destruct (special c) eqn:Ec; cbn [app].
    + rewrite replace_skip.
      2:{ cbn [starts_with].
          destruct (N.eqb_spec x c); [congruence|apply andb_false_r]. }
      rewrite replace_skip.
      2:{ cbn [starts_with].
          destruct (N.eqb_spec backslash c); [congruence|reflexivity]. }
      rewrite IH. reflexivity.
    + rewrite replace_skip.
      2:{ change (starts_with [backslash; x]
                    (c :: escape_with (fun c0 => (c0 =? x)%N || special c0) s))
            with ((backslash =? c)%N
                  && starts_with [x]
                       (escape_with (fun c0 => (c0 =? x)%N || special c0) s)).
          rewrite escape_with_head; [apply andb_false_r| |exact Hne].
          rewrite N.eqb_refl. reflexivity. }
      rewrite IH. reflexivity.
Qed.

Lemma escape_with_ext (f g : char -> bool) (s : str) :
  (forall c, f c = g c) -> escape_with f s = escape_with g s.
Proof.
  intros H. unfold escape_with. apply flat_map_ext. intros c. rewrite H.
  reflexivity.
Qed.

Lemma unescape_escape (s : str) : unescape (escape s) = s.
Proof.
  unfold unescape, escape.
  rewrite (escape_with_ext escapable
             (fun c => (c =? backtick)%N
                       || ((c =? squote)%N || ((c =? dollar)%N || false))))
    by (intros c; unfold escapable;
        destruct (c =? backtick)%N, (c =? squote)%N, (c =? dollar)%N; reflexivity).
  rewrite replace_escape_with by (reflexivity || discriminate).
  rewrite replace_escape_with by (reflexivity || discriminate).
  rewrite replace_escape_with by (reflexivity || discriminate).
  apply escape_with_none.
Qed.

(** In escaped text every special character follows a backslash. *)
Lemma escape_with_preceded (special : char -> bool) (x : char) (s : str) :
  special x = true -> x <> backslash ->
  forall p, nth_error (escape_with special s) p = Some x ->
            preceded_by_backslash (escape_with special s) p = true.
Proof.
  intros Hx Hne. induction s as [|c s IH]; intros p Hp.
  - destruct p; discriminate.
  - rewrite escape_with_cons in *. destruct (special c) eqn:Ec; cbn [app] in *.
    + destruct p as [|[|p]].
      * simpl in Hp. congruence.
      * reflexivity.
      * change (nth_error (escape_with special s) p = Some x) in Hp.
        specialize (IH p Hp). destruct p as [|p]; [discriminate|].
        exact IH.
    + destruct p as [|p].
      * simpl in Hp. congruence.
      * change (nth_error (escape_with special s) p = Some x) in Hp.
        specialize (IH p Hp). destruct p as [|p]; [discriminate|].
        exact IH.
Qed.

Lemma escape_last (s' : str) (c : char) :
  exists l, escape (s' ++ [c]) = l ++ [c].
Proof.
  unfold escape. rewrite escape_with_app. simpl.
  match goal with |- context [if ?b then _ else _] => destruct b end.
  - exists (escape_with escapable s' ++ [backslash]).
    rewrite <- app_assoc. reflexivity.
  - eexists. reflexivity.
Qed.

(** ** The template round trip *)

Section RoundTrip.

Variables (pre s rest : str).

(** The template does not end with a backslash. *)
Hypothesis s_end : forall s', s <> s' ++ [backslash].

(** A comma or a closing brace follows the closing backtick closely. *)
Hypothesis rest_ends :
  contains comma (firstn 9 rest) || contains rbrace (firstn 9 rest) = true.

Let content : str := pre ++ backslash :: backtick :: escape s ++ backtick :: rest.
Let front : str := pre ++ [backslash; backtick].

Lemma round_trip_content : content = front ++ escape s ++ backtick :: rest.
Proof. unfold content, front. rewrite <- app_assoc. reflexivity. Qed.

Lemma round_trip_closing_char :
  nth_error content (List.length front + List.length (escape s)) = Some backtick.
Proof.
  rewrite round_trip_content, nth_error_shift.
  rewrite nth_error_app2 by lia. rewrite Nat.sub_diag. reflexivity.
Qed.

Lemma round_trip_before_closing :
  nth_error content (List.length front + List.length (escape s) - 1)
  <> Some backslash.
Proof.
  destruct (list_eq_dec N.eq_dec s []) as [E|E].
  - rewrite E. unfold content, front. cbn [escape escape_with flat_map].
    rewrite length_app. cbn [List.length app].
    replace (List.length pre + 2 + 0 - 1)%nat with (List.length pre + 1)%nat by lia.
    rewrite nth_error_shift. discriminate.
  - destruct (exists_last E) as [s' [c Es]]. clear E. rename Es into E.
    destruct (escape_last s' c) as [l El].
    assert (El' : escape s = l ++ [c]) by (rewrite E; exact El).
    rewrite round_trip_content, El'.
    rewrite length_app. cbn [List.length].
    replace (List.length front + (List.length l + 1) - 1)%nat
      with (List.length (front ++ l) + 0)%nat by (rewrite length_app; lia).
    replace (front ++ (l ++ [c]) ++ backtick :: rest)
      with ((front ++ l) ++ c :: backtick :: rest)
      by (rewrite <- !app_assoc; reflexivity).
    rewrite nth_error_shift. simpl. intros H. injection H as ->.
    apply (s_end s'). exact E.
Qed.

Lemma round_trip_closing :
  closing_backtick content (len front + len (escape s)).
Proof.
  unfold closing_backtick, len. split; [|split].
  - rewrite <- Nat2Z.inj_add. apply getitem_nat, round_trip_closing_char.
  - assert (Hpos : (1 <= List.length front)%nat)
      by (unfold front; rewrite length_app; simpl; lia).
    replace (Z.of_nat (List.length front) + Z.of_nat (List.length (escape s)) - 1)
      with (Z.of_nat (List.length front + List.length (escape s) - 1)) by lia.
    intros H. apply getitem_Ok_nat in H.
    exact (round_trip_before_closing H).
  - unfold lookahead. rewrite <- rest_ends.
    rewrite slice_nonneg by lia.
    replace (Z.to_nat (Z.of_nat (List.length front)
                       + Z.of_nat (List.length (escape s)) + 10
                       - (Z.of_nat (List.length front)
                          + Z.of_nat (List.length (escape s)) + 1)))
      with 9%nat by lia.
    replace (Z.to_nat (Z.of_nat (List.length front)
                       + Z.of_nat (List.length (escape s)) + 1))
      with (List.length (front ++ escape s ++ [backtick]) + 0)%nat
      by (rewrite !length_app; simpl; lia).
    replace content with ((front ++ escape s ++ [backtick]) ++ rest)
      by (rewrite round_trip_content, <- !app_assoc; reflexivity).
    rewrite skipn_app_length. reflexivity.
Qed.

Lemma round_trip_no_earlier (k : Z) :
  len front <= k < len front + len (escape s) ->
  ~ closing_backtick content k.
Proof.
  intros Hk [Hc [Hp _]]. unfold len in Hk.
  remember (Z.to_nat k - List.length front)%nat as p eqn:Ep.
  assert (Ek : k = Z.of_nat (List.length front + p)) by lia.
  rewrite Ek in Hc. apply getitem_Ok_nat in Hc.
  rewrite round_trip_content, nth_error_shift in Hc.
  rewrite nth_error_app1 in Hc by lia.
  pose proof (escape_with_preceded _ backtick s eq_refl ltac:(discriminate) p Hc)
    as Hpre.
  destruct p as [|p]; [discriminate|].
  apply Hp. rewrite Ek.
  replace (Z.of_nat (List.length front + S p) - 1)
    with (Z.of_nat (List.length front + p)) by lia.
  apply getitem_nat.
  rewrite round_trip_content, nth_error_shift.
  rewrite nth_error_app1 by lia.
  cbn [preceded_by_backslash] in Hpre. fold (escape s) in Hpre.
  destruct (nth_error (escape s) p) as [c|]; [|discriminate].
  apply N.eqb_eq in Hpre. subst c. reflexivity.
Qed.

Lemma round_trip_span :
  slice content (len front) (len front + len (escape s)) = escape s.
Proof.
  unfold len. rewrite <- Nat2Z.inj_add.
  rewrite slice_nat
    by (rewrite round_trip_content, !length_app; simpl; lia).
  rewrite round_trip_content.
  replace (skipn (List.length front) (front ++ escape s ++ backtick :: rest))
    with (escape s ++ backtick :: rest)
    by (symmetry; apply skipn_length_app).
  replace (List.length front + List.length (escape s) - List.length front)%nat
    with (List.length (escape s) + 0)%nat by lia.
  rewrite firstn_app_2. cbn [firstn]. apply app_nil_r.
Qed.

(** Once the anchor ends at the backtick before the escaped template, the
    extractor returns the template. *)
Lemma round_trip (a : re_match) :
  re_search template_pattern content = Some a ->
  m_end a = len pre + 2 ->
  extract_template content = Ok (Some s).
Proof.
  intros Hs He. unfold extract_template. rewrite Hs. cbv zeta.
  assert (Hf : m_end a = len front)
    by (unfold front; rewrite len_app; unfold len at 2; simpl; lia).
  rewrite Hf.
  destruct (template_scan_found content (len front)
              (Z.to_nat (len (escape s))) (len front)
              (len front + len (escape s))) as [k [Hk [Hc Hr]]].
  - lia.
  - unfold front, len. rewrite length_app. simpl. lia.
  - exact round_trip_closing.
  - assert (k = len front + len (escape s)).
    { destruct (Z.eq_dec k (len front + len (escape s))) as [E|E]; [exact E|].
      exfalso. apply (round_trip_no_earlier k); [lia|exact Hc]. }
    subst k. rewrite Hr, round_trip_span, unescape_escape. reflexivity.
Qed.

End RoundTrip.

(** ** The three replacements of line 58 are one pass *)

Lemma drop_escapes_none (s : str) : drop_escapes (fun _ => false) s = s.
Proof.
  induction s as [|c s IH]; [reflexivity|].
  cbn [drop_escapes]. destruct s as [|d s]; [reflexivity|].
  rewrite andb_false_r, IH. reflexivity.
Qed.

Lemma drop_escapes_ext (f g : char -> bool) (s : str) :
  (forall c, f c = g c) -> drop_escapes f s = drop_escapes g s.
Proof.
  intros H.
  assert (P : forall n s, (List.length s <= n)%nat ->
                          drop_escapes f s = drop_escapes g s).
  { induction n as [|n IH]; intros [|c [|d r]] Hn; simpl in Hn;
      try reflexivity; try lia.
    cbn [drop_escapes]. rewrite H.
    destruct ((c =? backslash)%N && g d).
    - f_equal. apply IH. lia.
    - f_equal. apply (IH (d :: r)). simpl. lia. }
  apply (P (List.length s)). lia.
Qed.

Lemma drop_escapes_two (special : char -> bool) (c d : char) (s : str) :
  drop_escapes special (c :: d :: s)
  = if (c =? backslash)%N && special d then d :: drop_escapes special s
    else c :: drop_escapes special (d :: s).
Proof. reflexivity. Qed.

Lemma drop_escapes_keep (special : char -> bool) (c : char) (s : str) :
  c <> backslash ->
  drop_escapes special (c :: s) = c :: drop_escapes special s.
Proof.
  intros Hc. destruct s as [|d s]; [reflexivity|].
  rewrite drop_escapes_two.
  destruct (N.eqb_spec c backslash); [contradiction|reflexivity].
Qed.

(** The text left by a pass never begins with a character that the pass
    does not drop the backslash of, unless the text itself begins with it. *)
Lemma drop_escapes_head (special : char -> bool) (x d : char) (s : str) :
  special x = false -> d <> x ->
  starts_with [x] (drop_escapes special (d :: s)) = false.
Proof.
  intros Hx Hd. destruct s as [|e s].
  - cbn [drop_escapes starts_with].
    destruct (N.eqb_spec x d); [congruence|reflexivity].
  - rewrite drop_escapes_two.
    destruct ((d =? backslash)%N && special e) eqn:E; cbn [starts_with].
    + apply andb_true_iff in E. destruct E as [_ E].
      destruct (N.eqb_spec x e); [congruence|reflexivity].
    + destruct (N.eqb_spec x d); [congruence|reflexivity].
Qed.

Lemma replace_drop_escapes (special : char -> bool) (x : char) :
  special x = false -> special backslash = false -> x <> backslash ->
  forall s,
    replace (drop_escapes special s) [backslash; x] [x]
    = drop_escapes (fun c => (c =? x)%N || special c) s.
Proof.
  intros Hx Hb Hne.
  assert (P : forall n s, (List.length s <= n)%nat ->
    replace (drop_escapes special s) [backslash; x] [x]
    = drop_escapes (fun c => (c =? x)%N || special c) s).
  { induction n as [|n IH]; intros [|c [|d r]] Hn; simpl in Hn;
      try reflexivity; try lia.
    { cbn [drop_escapes]. apply replace_skip. cbn [starts_with].
      apply andb_false_r. }
    rewrite !drop_escapes_two.
    destruct (N.eqb_spec c backslash) as [Ec|Ec]; cbn [andb].
    - subst c. destruct (special d) eqn:Ed.
      + rewrite orb_true_r.
        rewrite replace_skip.
        2:{ cbn [starts_with].
            destruct (N.eqb_spec backslash d); [congruence|reflexivity]. }
        f_equal. apply IH. lia.
      + rewrite orb_false_r. destruct (N.eqb_spec d x) as [Ex|Ex].
        * subst d. rewrite drop_escapes_keep by exact Hne.
          rewrite replace_match. cbn [app]. f_equal. apply IH. lia.
        * rewrite replace_skip.
          2:{ change (starts_with [backslash; x]
                        (backslash :: drop_escapes special (d :: r)))
                with ((backslash =? backslash)%N
                      && starts_with [x] (drop_escapes special (d :: r))).
              rewrite drop_escapes_head by assumption. apply andb_false_r. }
          f_equal. apply (IH (d :: r)). simpl. lia.
    - rewrite replace_skip.
      2:{ cbn [starts_with].
          destruct (N.eqb_spec backslash c); [congruence|reflexivity]. }
      f_equal. apply (IH (d :: r)). simpl. lia. }
  intros s. apply (P (List.length s)). lia.
Qed.

Lemma unescape_one_pass (s : str) : unescape s = drop_escapes escapable s.
Proof.
  unfold unescape.
  rewrite <- (drop_escapes_none s) at 1.
  rewrite !replace_drop_escapes by (reflexivity || discriminate).
  apply drop_escapes_ext. intros c. unfold escapable.
  destruct (c =? backtick)%N, (c =? squote)%N, (c =? dollar)%N; reflexivity.
Qed.

(** A present result is the unescaped text up to an accepted backtick. *)
Lemma template_scan_result (content : str) (start : Z) :
  forall (n : nat) (i : Z) (t : str),
    (Z.to_nat (len content - i) <= n)%nat -> 1 <= i ->
    template_scan content start i = Ok (Some t) ->
    exists k, i <= k < len content /\ closing_backtick content k
              /\ t = unescape (slice content start k).
Proof.
  induction n as [|n IH]; intros i t Hn Hi Hr.
  - unfold template_scan in Hr. rewrite template_loop_end in Hr by lia.
    discriminate.
  - destruct (Z_lt_ge_dec i (len content)) as [Hlt|Hge].
    2:{ unfold template_scan in Hr. rewrite template_loop_end in Hr by lia.
        discriminate. }
    destruct (template_step_cases content start i) as
      [[_ [_ E]]|[[Hc E]|[_ [_ E]]]]; [lia| | |].
    + rewrite (template_scan_next content start i (i + 2)) in Hr;
        [|lia|lia|exact E].
      destruct (IH (i + 2) t) as [k [Hk Hck]]; [lia|lia|exact Hr|].
      exists k. split; [lia|exact Hck].
    + rewrite (template_scan_stop content start i _ ltac:(lia) E) in Hr.
      injection Hr as <-. exists i. split; [lia|]. split; [exact Hc|reflexivity].
    + rewrite (template_scan_next content start i (i + 1)) in Hr;
        [|lia|lia|exact E].
      destruct (IH (i + 1) t) as [k [Hk Hck]]; [lia|lia|exact Hr|].
      exists k. split; [lia|exact Hck].
Qed.

Lemma extract_template_result (content : str) (t : str) :
  extract_template content = Ok (Some t) ->
  exists a k,
    re_search template_pattern content = Some a
    /\ m_end a <= k < len content /\ closing_backtick content k
    /\ t = drop_escapes escapable (slice content (m_end a) k).
Proof.
  unfold extract_template.
  destruct (re_search template_pattern content) as [a|] eqn:Hs; [|discriminate].
  intros Hr. pose proof (re_search_bounds _ _ _ Hs) as Hb. simpl in Hb.
  destruct (template_scan_result content (m_end a)
              (Z.to_nat (len content - m_end a)) (m_end a) t)
    as [k [Hk [Hc Ht]]]; [lia|lia|exact Hr|].
  exists a, k. rewrite <- unescape_one_pass. auto.
Qed.

(** C7: every present result of extract_template is its span passed
    through the unescaping of line 58, and that pass drops each backslash
    that stands before a backtick, a single quote or a dollar sign and
    changes nothing else.  So for every template written with those three
    characters escaped, between an anchor and a closing backtick that a comma
    or a closing brace follows within nine characters, the extractor returns
    the template itself, the three characters unescaped; the other extractors
    return their span as it is. *)
Theorem template_round_trip :
  (forall (content t : str),
      extract_template content = Ok (Some t) ->
      exists a k,
        re_search template_pattern content = Some a
        /\ m_end a <= k < len content /\ closing_backtick content k
        /\ t = drop_escapes escapable (slice content (m_end a) k))
  /\ (forall s, unescape s = drop_escapes escapable s)
  /\ (forall c, escapable c = true <-> c = backtick \/ c = squote \/ c = dollar)
  /\ (forall (pre s rest : str) (a : re_match),
        (forall s', s <> s' ++ [backslash]) ->
        contains comma (firstn 9 rest) || contains rbrace (firstn 9 rest) = true ->
        re_search template_pattern
          (pre ++ backslash :: backtick :: escape s ++ backtick :: rest) = Some a ->
        m_end a = len pre + 2 ->
        extract_template (pre ++ backslash :: backtick :: escape s ++ backtick :: rest)
        = Ok (Some s))
  /\ (forall (s rest : str),
        (forall s', s <> s' ++ [backslash]) ->
        contains comma (firstn 9 rest) || contains rbrace (firstn 9 rest) = true ->
        extract_template (lit "template: \`" ++ escape s ++ backtick :: rest)
        = Ok (Some s))
  /\ extract_template (lit "template: \`<a title=\'x\'>\`\${y}\`</a>`, data")
     = Ok (Some (lit "<a title='x'>`${y}`</a>"))
  /\ extract_section (lit "methods: { a: '\$\`' }") (lit "methods")
     = Ok (Some (lit " a: '\$\`' ")).
Proof.
  split; [exact extract_template_result|].
  split; [exact unescape_one_pass|].
  split.
  { intros c. unfold escapable. rewrite !orb_true_iff, !N.eqb_eq. tauto. }
  split; [|split; [|split; reflexivity]].
  - intros pre s rest a Hend Hrest Hs He.
    exact (round_trip pre s rest Hend Hrest a Hs He).
  - intros s rest Hend Hrest.
    change (lit "template: \`" ++ escape s ++ backtick :: rest)
      with (lit "template: " ++ backslash :: backtick :: escape s ++ backtick :: rest).
    apply (round_trip (lit "template: ") s rest Hend Hrest
             {| m_start := 0; m_end := 12 |}); reflexivity.
Qed.

Lemma template_round_trip_witness :
  extract_template
    (lit "template: \`" ++ escape (lit "<a title='x'>`${y}`</a>")
       ++ backtick :: lit ", data")
  = Ok (Some (lit "<a title='x'>`${y}`</a>")).
Proof.
  apply (proj1 (proj2 (proj2 (proj2 (proj2 template_round_trip))))).
  - intros s' H.
    assert (E : last (lit "<a title='x'>`${y}`</a>") 0%N = last (s' ++ [backslash]) 0%N)
      by (rewrite <- H; reflexivity).
    rewrite last_last in E. vm_compute in E. discriminate.
  - reflexivity.
Defined.

(** ** Absent sections *)

Lemma template_scan_total (content : str) (start : Z) :
  forall (n : nat) (i : Z),
    (Z.to_nat (len content - i) <= n)%nat -> 1 <= i ->
    exists r, template_scan content start i = Ok r.
Proof.
  induction n as [|n IH]; intros i Hn Hi.
  - exists None. unfold template_scan. apply template_loop_end. lia.
  - destruct (Z_lt_ge_dec i (len content)) as [Hlt|Hge];
      [|exists None; unfold template_scan; apply template_loop_end; lia].
    destruct (template_step_cases content start i) as
      [[_ [_ E]]|[[_ E]|[_ [_ E]]]]; [lia| | |].
    + rewrite (template_scan_next content start i (i + 2)); [|lia|lia|exact E].
      apply IH; lia.
    + eexists. apply template_scan_stop; [lia|exact E].
    + rewrite (template_scan_next content start i (i + 1)); [|lia|lia|exact E].
      apply IH; lia.
Qed.

Lemma extract_template_total (content : str) :
  exists r, extract_template content = Ok r.
Proof.
  unfold extract_template.
  destruct (re_search template_pattern content) as [a|] eqn:Hs; [|eauto].
  pose proof (re_search_bounds _ _ _ Hs) as Hb. simpl in Hb.
  apply (template_scan_total content (m_end a) (Z.to_nat (len content - m_end a)));
    lia.
Qed.

Lemma extract_braces_total (content : str) (a : re_match) :
  1 <= m_end a <= len content ->
  exists r, extract_braces content a = Ok r.
Proof.
  intros Hb. unfold extract_braces.
  destruct (find_matching_brace_range_aux content (m_end a - 1)) as [r [Hr _]];
    [lia|].
  rewrite Hr. cbn [bind]. destruct (r =? -1); eauto.
Qed.

Lemma extract_braces_absent (content : str) (a : re_match) :
  1 <= m_end a ->
  (forall k, (Z.to_nat (m_end a - 1) <= k < List.length content)%nat ->
             depth_upto content (Z.to_nat (m_end a - 1)) k <> 0) ->
  extract_braces content a = Ok None.
Proof.
  intros Hb Hnz. unfold extract_braces.
  rewrite <- (Z2Nat.id (m_end a - 1)) by lia.
  rewrite (scanner_not_found _ _ Hnz). reflexivity.
Qed.

Lemma section_pattern_width (name : str) (content : str) (a : re_match) :
  re_search (section_pattern name) content = Some a ->
  1 <= m_end a <= len content.
Proof.
  intros Hs. apply re_search_bounds in Hs. simpl in Hs. lia.
Qed.

Lemma data_pattern_width (content : str) (a : re_match) :
  re_search data_pattern content = Some a -> 1 <= m_end a <= len content.
Proof.
  intros Hs. apply re_search_bounds in Hs. simpl in Hs. lia.
Qed.

Lemma lifecycle_pattern_width (name : str) (content : str) (a : re_match) :
  re_search (lifecycle_pattern name) content = Some a ->
  1 <= m_end a <= len content.
Proof.
  intros Hs. apply re_search_bounds in Hs. simpl in Hs. lia.
Qed.

Lemma extract_section_total (content name : str) :
  exists r, extract_section content name = Ok r.
Proof.
  unfold extract_section.
  destruct (re_search (section_pattern name) content) as [a|] eqn:Hs; [|eauto].
  apply extract_braces_total. eapply section_pattern_width, Hs.
Qed.

Lemma extract_data_total (content : str) :
  exists r, extract_data content = Ok r.
Proof.
  unfold extract_data.
  destruct (re_search data_pattern content) as [a|] eqn:Hs; [|eauto].
  apply extract_braces_total. eapply data_pattern_width, Hs.
Qed.

Lemma extract_lifecycle_total (content name : str) :
  exists r, extract_lifecycle content name = Ok r.
Proof.
  unfold extract_lifecycle.
  destruct (re_search (lifecycle_pattern name) content) as [a|] eqn:Hs; [|eauto].
  apply extract_braces_total. eapply lifecycle_pattern_width, Hs.
Qed.

(** C9: find_matching_brace returns a value for every start index that is
    not negative, and that value is -1 when the text ends before the depth is
    back to zero; extract_template returns None when no backtick after the
    anchor is accepted as the closing one; extract_data returns None when the
    scanner returns -1, and so do extract_section and extract_lifecycle for
    a name that holds no character special to the pattern language (the
    script passes computed, methods and mounted); and the four extractors,
    the last two for such a name, return a value, None or a span, for every
    buffer: none of them raises. *)
Theorem not_found_is_absent :
  (forall (text : str) (start_pos : Z),
      0 <= start_pos -> exists r, find_matching_brace text start_pos = Ok r)
  /\ (forall (text : str) (start : nat),
        (forall k, (start <= k < List.length text)%nat ->
                   depth_upto text start k <> 0) ->
        find_matching_brace text (Z.of_nat start) = Ok (-1))
  /\ (forall (content : str) (a : re_match),
        re_search template_pattern content = Some a ->
        (forall j, m_end a <= j < len content -> ~ closing_backtick content j) ->
        extract_template content = Ok None)
  /\ (forall (content name : str) (a : re_match),
        regex_literal name = true ->
        re_search (section_pattern name) content = Some a ->
        find_matching_brace content (m_end a - 1) = Ok (-1) ->
        extract_section content name = Ok None)
  /\ (forall (content : str) (a : re_match),
        re_search data_pattern content = Some a ->
        find_matching_brace content (m_end a - 1) = Ok (-1) ->
        extract_data content = Ok None)
  /\ (forall (content name : str) (a : re_match),
        regex_literal name = true ->
        re_search (lifecycle_pattern name) content = Some a ->
        find_matching_brace content (m_end a - 1) = Ok (-1) ->
        extract_lifecycle content name = Ok None)
  /\ (forall (content : str),
        (exists r, extract_template content = Ok r)
        /\ (exists r, extract_data content = Ok r))
  /\ (forall (content name : str),
        regex_literal name = true ->
        (exists r, extract_section content name = Ok r)
        /\ (exists r, extract_lifecycle content name = Ok r)).
Proof.
  split.
  { intros text start_pos H. unfold find_matching_brace.
    destruct (fmb_loop_total text (Z.to_nat (len text - start_pos))
                start_pos 0 false None) as [r [Hr _]]; [lia|lia|eauto]. }
  split; [exact scanner_not_found|].
  split.
  { intros content a Hs Hno. unfold extract_template. rewrite Hs.
    pose proof (re_search_bounds _ _ _ Hs) as Hb. simpl in Hb.
    apply (template_scan_absent content (m_end a)
             (Z.to_nat (len content - m_end a))); [lia|lia|exact Hno]. }
  split.
  { intros content name a _ Hs Hf. unfold extract_section, extract_braces.
    rewrite Hs, Hf. reflexivity. }
  split.
  { intros content a Hs Hf. unfold extract_data, extract_braces.
    rewrite Hs, Hf. reflexivity. }
  split.
  { intros content name a _ Hs Hf. unfold extract_lifecycle, extract_braces.
    rewrite Hs, Hf. reflexivity. }
  split.
  { intros content.
    split; [apply extract_template_total|apply extract_data_total]. }
  intros content name _.
  split; [apply extract_section_total|apply extract_lifecycle_total].
Qed.

Lemma not_found_is_absent_witness :
  extract_section (lit "methods: { a: { b }") (lit "methods") = Ok None
  /\ extract_lifecycle (lit "mounted() { if (x) { y(); }") (lit "mounted") = Ok None
  /\ extract_template (lit "template: \`<p>\`x\`</p>") = Ok None.
Proof.
  split; [|split].
  - apply (proj1 (proj2 (proj2 (proj2 not_found_is_absent)))
             (lit "methods: { a: { b }") (lit "methods")
             {| m_start := 0; m_end := 10 |}); reflexivity.
  - apply (proj1 (proj2 (proj2 (proj2 (proj2 (proj2 not_found_is_absent)))))
             (lit "mounted() { if (x) { y(); }") (lit "mounted")
             {| m_start := 0; m_end := 11 |}); reflexivity.
  - apply (proj1 (proj2 (proj2 not_found_is_absent))
             (lit "template: \`<p>\`x\`</p>") {| m_start := 0; m_end := 12 |}).
    + reflexivity.
    + intros j Hj [_ [_ Hl]].
      assert (Hc : j = 12 \/ j = 13 \/ j = 14 \/ j = 15 \/ j = 16 \/ j = 17
                   \/ j = 18 \/ j = 19 \/ j = 20 \/ j = 21 \/ j = 22 \/ j = 23)
        by (change (12 <= j < 24) in Hj; lia).
      repeat (destruct Hc as [->|Hc]; [vm_compute in Hl; discriminate|]).
      subst j. vm_compute in Hl. discriminate.
Defined.

(** ** The driver *)

Lemma in_save (e : effect) (path name : string) (r : option str)
    (out : list effect) :
  In e (save path name r out)
  <-> In e out
      \/ exists t, r = Some t /\ t <> []
                   /\ (e = WriteFile path t \/ e = Print (confirmation name t)).
Proof.
  unfold save. destruct r as [[|c t]|]; cbn [truthy].
  - split; [auto|]. intros [H|[t [E [Hne _]]]]; [exact H|].
    injection E as <-. contradiction.
  - rewrite in_app_iff. cbn [In]. split.
    + intros [H|[H|[H|[]]]]; [auto| |];
        right; exists (c :: t); (split; [reflexivity|split; [discriminate|auto]]).
    + intros [H|[t' [E [_ [H|H]]]]]; [auto| |]; injection E as <-; right; auto.
  - split; [auto|]. intros [H|[t [E _]]]; [exact H|discriminate].
Qed.

Lemma confirmation_not_done (name : string) (t : str) :
  confirmation name t <> done_line.
Proof.
  intros H. apply (f_equal (firstn 1)) in H. discriminate.
Qed.

Lemma confirmation_name (n1 n2 : string) (t1 t2 : str) :
  In n1 ["template"; "data"; "computed"; "methods"; "mounted"]%string ->
  In n2 ["template"; "data"; "computed"; "methods"; "mounted"]%string ->
  confirmation n1 t1 = confirmation n2 t2 -> n1 = n2.
Proof.
  intros H1 H2 E. apply (f_equal (firstn 14)) in E.
  cbn [In] in H1, H2.
  repeat (destruct H1 as [<-|H1]; [|]); try contradiction;
    repeat (destruct H2 as [<-|H2]; [|]); try contradiction;
    try reflexivity; vm_compute in E; discriminate.
Qed.

Ltac split_cases H :=
  repeat match type of H with
    | _ \/ _ => destruct H as [H|H]
    | exists _, _ => let t := fresh "t" in destruct H as [t H]
    | _ /\ _ => let H' := fresh "H" in destruct H as [H' H]
    | False => contradiction
    end.

Ltac tuple_eq :=
  repeat match goal with
    | H : (_, _, _) = (_, _, _) |- _ =>
        first [discriminate H | injection H; clear H; intros]
    | E : _ = ?x |- _ => is_var x; subst x
    end.

Section Driver.

Variables (template data computed methods mounted : option str).

Let out : list effect :=
  save "frontend/vue-mounted.js" "mounted" mounted
    (save "frontend/vue-methods.js" "methods" methods
       (save "frontend/vue-computed.js" "computed" computed
          (save "frontend/vue-data.js" "data" data
             (save "frontend/vue-template.html" "template" template []))))
  ++ [Print done_line].

Lemma in_out (e : effect) :
  In e out
  <-> e = Print done_line
      \/ exists path name r t,
           In (path, name, r)
             [("frontend/vue-template.html", "template", template);
              ("frontend/vue-data.js", "data", data);
              ("frontend/vue-computed.js", "computed", computed);
              ("frontend/vue-methods.js", "methods", methods);
              ("frontend/vue-mounted.js", "mounted", mounted)]%string
           /\ r = Some t /\ t <> []
           /\ (e = WriteFile path t \/ e = Print (confirmation name t)).
Proof.
  unfold out. rewrite in_app_iff, !in_save. cbn [In]. split.
  - intros H. split_cases H;
      try (left; symmetry; assumption);
      right; do 4 eexists;
      (split;
       [|split; [eassumption
                |split; [eassumption
                        |(left; eassumption) || (right; eassumption)]]]);
      cbn [In]; auto 10.
  - intros [->|[path [name [r [t [Hin [Hr [Hne He]]]]]]]]; [auto|].
    left. split_cases Hin; tuple_eq; eauto 12.
Qed.

Lemma out_saved (path name : string) (r : option str) :
  In (path, name, r)
    [("frontend/vue-template.html", "template", template);
     ("frontend/vue-data.js", "data", data);
     ("frontend/vue-computed.js", "computed", computed);
     ("frontend/vue-methods.js", "methods", methods);
     ("frontend/vue-mounted.js", "mounted", mounted)]%string ->
  saved path name r out.
Proof.
  intros Hin. unfold saved. split; [|split].
  - intros t. rewrite in_out. split.
    + intros [H|[path' [name' [r' [t' [Hin' [Hr [Hne [He|He]]]]]]]]];
        try discriminate.
      injection He as <- <-.
      cbn [In] in Hin, Hin'. split_cases Hin; split_cases Hin'; tuple_eq;
        (split; [congruence|assumption]).
    + intros [Hr Hne]. right. exists path, name, r, t. auto.
  - split.
    + intros [t Ht]. apply in_out in Ht.
      destruct Ht as [H|[path' [name' [r' [t' [Hin' [Hr [Hne [He|He]]]]]]]]];
        try discriminate.
      apply (f_equal (fun e => match e with Print l => l | _ => [] end)) in He.
      assert (En : name = name').
      { apply (confirmation_name name name' t t'); [| |exact He];
          cbn [In] in Hin, Hin'; [split_cases Hin|split_cases Hin'];
          tuple_eq; cbn [In]; auto 10. }
      subst name'. exists t'. split; [|exact Hne].
      cbn [In] in Hin, Hin'. split_cases Hin; split_cases Hin'; tuple_eq;
        congruence.
    + intros [t [Hr Hne]]. exists t. apply in_out. right.
      exists path, name, r, t. auto.
  - intros t Hr Hne. apply in_out. right. exists path, name, r, t. auto.
Qed.

End Driver.

Lemma saved_none (path name : string) (out : list effect) :
  saved path name None out -> skipped path name out.
Proof.
  intros [Hw [Hp _]]. split.
  - intros t Hin. apply Hw in Hin. destruct Hin as [Hin _]. discriminate.
  - intros t Hin. destruct Hp as [Hp _].
    destruct Hp as [t' [Ht' _]]; [eauto|discriminate].
Qed.

(** C4 as stated fails: on an empty methods object extract_section returns
    a span, the empty one, and the driver writes no file and prints no
    confirmation for it. *)
Lemma driver_counterexample :
  extract_section (lit "methods: {}") (lit "methods") = Ok (Some [])
  /\ driver (lit "methods: {}") = Ok [Print done_line].
Proof. split; reflexivity. Qed.

(** C4, as amended: for each of the five sections the driver writes the
    section's file, with the extracted span, and prints its confirmation line
    if and only if the extractor returned a span that is not empty; when the
    section's anchor pattern is nowhere in the buffer the extractor returns
    None and the driver writes no file and prints no confirmation for it. *)
Theorem driver_saves_nonempty_spans (content : str) :
  exists template data computed methods mounted out,
    extract_template content = Ok template
    /\ extract_data content = Ok data
    /\ extract_section content (lit "computed") = Ok computed
    /\ extract_section content (lit "methods") = Ok methods
    /\ extract_lifecycle content (lit "mounted") = Ok mounted
    /\ driver content = Ok out
    /\ saved "frontend/vue-template.html" "template" template out
    /\ saved "frontend/vue-data.js" "data" data out
    /\ saved "frontend/vue-computed.js" "computed" computed out
    /\ saved "frontend/vue-methods.js" "methods" methods out
    /\ saved "frontend/vue-mounted.js" "mounted" mounted out
    /\ (re_search template_pattern content = None ->
        template = None /\ skipped "frontend/vue-template.html" "template" out)
    /\ (re_search data_pattern content = None ->
        data = None /\ skipped "frontend/vue-data.js" "data" out)
    /\ (re_search (section_pattern (lit "computed")) content = None ->
        computed = None /\ skipped "frontend/vue-computed.js" "computed" out)
    /\ (re_search (section_pattern (lit "methods")) content = None ->
        methods = None /\ skipped "frontend/vue-methods.js" "methods" out)
    /\ (re_search (lifecycle_pattern (lit "mounted")) content = None ->
        mounted = None /\ skipped "frontend/vue-mounted.js" "mounted" out).
Proof.
  destruct (extract_template_total content) as [template Ht].
  destruct (extract_data_total content) as [data Hd].
  destruct (extract_section_total content (lit "computed")) as [computed Hc].
  destruct (extract_section_total content (lit "methods")) as [methods Hm].
  destruct (extract_lifecycle_total content (lit "mounted")) as [mounted Hl].
  exists template, data, computed, methods, mounted.
  eexists.
  split; [exact Ht|]. split; [exact Hd|]. split; [exact Hc|].
  split; [exact Hm|]. split; [exact Hl|].
  split.
  { unfold driver. rewrite Ht, Hd, Hc, Hm, Hl. cbn [bind]. reflexivity. }
  assert (Hs : forall path name r,
    In (path, name, r)
      [("frontend/vue-template.html", "template", template);
       ("frontend/vue-data.js", "data", data);
       ("frontend/vue-computed.js", "computed", computed);
       ("frontend/vue-methods.js", "methods", methods);
       ("frontend/vue-mounted.js", "mounted", mounted)]%string ->
    saved path name r
      (save "frontend/vue-mounted.js" "mounted" mounted
         (save "frontend/vue-methods.js" "methods" methods
            (save "frontend/vue-computed.js" "computed" computed
               (save "frontend/vue-data.js" "data" data
                  (save "frontend/vue-template.html" "template" template []))))
       ++ [Print done_line]))
    by (intros path name r; apply out_saved).
  split; [apply Hs; cbn [In]; auto|].
  split; [apply Hs; cbn [In]; auto|].
  split; [apply Hs; cbn [In]; auto|].
  split; [apply Hs; cbn [In]; auto 6|].
  split; [apply Hs; cbn [In]; auto 6|].
  split.
  { intros Hn. unfold extract_template in Ht. rewrite Hn in Ht.
    injection Ht as <-. split; [reflexivity|].
    apply saved_none, Hs. cbn [In]. auto. }
  split.
  { intros Hn. unfold extract_data in Hd. rewrite Hn in Hd.
    injection Hd as <-. split; [reflexivity|].
    apply saved_none, Hs. cbn [In]. auto. }
  split.
  { intros Hn. unfold extract_section in Hc. rewrite Hn in Hc.
    injection Hc as <-. split; [reflexivity|].
    apply saved_none, Hs. cbn [In]. auto. }
  split.
  { intros Hn. unfold extract_section in Hm. rewrite Hn in Hm.
    injection Hm as <-. split; [reflexivity|].
    apply saved_none, Hs. cbn [In]. auto 6. }
  intros Hn. unfold extract_lifecycle in Hl. rewrite Hn in Hl.
  injection Hl as <-. split; [reflexivity|].
  apply saved_none, Hs. cbn [In]. auto 6.
Qed.

Example driver_ex2 :
  driver (lit "template: \`<p>\$x</p>`, data() { return { n: 1 } }, mounted() { go(); }") =
  Ok [WriteFile "frontend/vue-template.html" (lit "<p>$x</p>");
      Print (check_mark :: lit " Extracted template (1 lines)");
      WriteFile "frontend/vue-data.js" (lit " n: 1 ");
      Print (check_mark :: lit " Extracted data (1 lines)");
      WriteFile "frontend/vue-mounted.js" (lit " go(); ");
      Print (check_mark :: lit " Extracted mounted (1 lines)");
      Print done_line].
Proof. vm_compute. reflexivity. Qed.

Lemma driver_saves_nonempty_spans_witness :
  exists out,
    driver (lit "methods: {}, computed: { a }") = Ok out
    /\ saved "frontend/vue-computed.js" "computed" (Some (lit " a ")) out
    /\ skipped "frontend/vue-mounted.js" "mounted" out.
Proof.
  destruct (driver_saves_nonempty_spans (lit "methods: {}, computed: { a }"))
    as [template [data [computed [methods [mounted [out H]]]]]].
  destruct H as [_ [_ [Hc [_ [_ [Hd [_ [_ [Hsc [_ [_ [_ [_ [_ [_ Hm]]]]]]]]]]]]]]].
  exists out. split; [exact Hd|]. split.
  - assert (E : computed = Some (lit " a ")).
    { assert (E' : Ok computed = Ok (Some (lit " a ")))
        by (rewrite <- Hc; reflexivity).
      injection E' as E'. exact E'. }
    rewrite <- E. exact Hsc.
  - apply Hm. reflexivity.
Defined.


(** * Further properties of the scanner and the extractors *)

(** ** One turn of the scanner, by the character read *)

Lemma fmb_loop_at (text : str) (i : nat) (c : char) (f : nat) (d : Z)
    (ins : bool) (sc : option char) :
  nth_error text i = Some c ->
  fmb_loop (S f) text (Z.of_nat i) d ins sc =
  let '(ins', sc') :=
    if is_quote c && negb (preceded_by_backslash text i)
    then quote_update c ins sc else (ins, sc) in
  if negb ins' then
    if (c =? lbrace)%N then fmb_loop f text (Z.of_nat (S i)) (d + 1) ins' sc'
    else if (c =? rbrace)%N then
      if d - 1 =? 0 then Ok (Z.of_nat i)
      else fmb_loop f text (Z.of_nat (S i)) (d - 1) ins' sc'
    else fmb_loop f text (Z.of_nat (S i)) d ins' sc'
  else fmb_loop f text (Z.of_nat (S i)) d ins' sc'.
Proof.
  intros Hc. rewrite fmb_loop_S.
  assert (Hlt : (i < List.length text)%nat) by (apply nth_error_Some; congruence).
  destruct (Z.ltb_spec (Z.of_nat i) (len text)); [|unfold len in *; lia].
  rewrite (getitem_nat _ _ _ Hc). cbn [bind]. unfold quote_step.
  rewrite (quote_cond_spec _ _ _ Hc). cbn [bind].
  replace (Z.of_nat i + 1) with (Z.of_nat (S i)) by lia.
  reflexivity.
Qed.

Lemma plain_spec (c : char) :
  plain c = true ->
  is_quote c = false /\ (c =? lbrace)%N = false /\ (c =? rbrace)%N = false
  /\ c <> backslash.
Proof.
  unfold plain. rewrite !andb_true_iff, !negb_true_iff.
  intros [[[H1 H2] H3] H4]. apply N.eqb_neq in H4. auto.
Qed.

Lemma fmb_loop_plain (text : str) (i : nat) (c : char) (f : nat) (d : Z) :
  nth_error text i = Some c -> plain c = true ->
  fmb_loop (S f) text (Z.of_nat i) d false None
  = fmb_loop f text (Z.of_nat (S i)) d false None.
Proof.
  intros Hc Hp. destruct (plain_spec c Hp) as [Hq [Hl [Hr _]]].
  rewrite (fmb_loop_at _ _ _ _ _ _ _ Hc), Hq. cbn [andb negb].
  rewrite Hl, Hr. reflexivity.
Qed.

Lemma fmb_loop_open (text : str) (i : nat) (f : nat) (d : Z) :
  nth_error text i = Some lbrace ->
  fmb_loop (S f) text (Z.of_nat i) d false None
  = fmb_loop f text (Z.of_nat (S i)) (d + 1) false None.
Proof.
  intros Hc. rewrite (fmb_loop_at _ _ _ _ _ _ _ Hc). reflexivity.
Qed.

Lemma fmb_loop_close (text : str) (i : nat) (f : nat) (d : Z) :
  nth_error text i = Some rbrace ->
  fmb_loop (S f) text (Z.of_nat i) d false None
  = if d - 1 =? 0 then Ok (Z.of_nat i)
    else fmb_loop f text (Z.of_nat (S i)) (d - 1) false None.
Proof.
  intros Hc. rewrite (fmb_loop_at _ _ _ _ _ _ _ Hc). reflexivity.
Qed.

Lemma fmb_loop_quote_open (text : str) (i : nat) (q : char) (f : nat) (d : Z) :
  nth_error text i = Some q -> is_quote q = true ->
  preceded_by_backslash text i = false ->
  fmb_loop (S f) text (Z.of_nat i) d false None
  = fmb_loop f text (Z.of_nat (S i)) d true (Some q).
Proof.
  intros Hc Hq Hp. rewrite (fmb_loop_at _ _ _ _ _ _ _ Hc), Hq, Hp.
  reflexivity.
Qed.

Lemma fmb_loop_quote_close (text : str) (i : nat) (q : char) (f : nat) (d : Z) :
  nth_error text i = Some q -> is_quote q = true ->
  preceded_by_backslash text i = false ->
  fmb_loop (S f) text (Z.of_nat i) d true (Some q)
  = fmb_loop f text (Z.of_nat (S i)) d false None.
Proof.
  intros Hc Hq Hp. rewrite (fmb_loop_at _ _ _ _ _ _ _ Hc), Hq, Hp.
  cbn [andb negb]. unfold quote_update. cbn [negb eq_string_char].
  rewrite N.eqb_refl. cbn [negb].
  destruct (is_quote_not_brace q Hq) as [Hl Hr].
  apply N.eqb_neq in Hl, Hr. rewrite Hl, Hr. reflexivity.
Qed.

Lemma fmb_loop_in_string (text : str) (i : nat) (c q : char) (f : nat) (d : Z) :
  nth_error text i = Some c ->
  c <> q \/ preceded_by_backslash text i = true ->
  fmb_loop (S f) text (Z.of_nat i) d true (Some q)
  = fmb_loop f text (Z.of_nat (S i)) d true (Some q).
Proof.
  intros Hc H. rewrite (fmb_loop_at _ _ _ _ _ _ _ Hc).
  destruct (is_quote c && negb (preceded_by_backslash text i)) eqn:E;
    [|reflexivity].
  destruct H as [H|H].
  - unfold quote_update. cbn [negb eq_string_char].
    apply N.eqb_neq in H. rewrite H. reflexivity.
  - rewrite H, andb_false_r in E. discriminate.
Qed.

(** Inside a string the scan runs on as long as no unescaped delimiter is
    read. *)
Lemma fmb_loop_string_body (text : str) (q : char) (d : Z) :
  forall (n i f : nat),
    (forall k, (k < n)%nat ->
       exists c, nth_error text (i + k) = Some c
                 /\ (c <> q \/ preceded_by_backslash text (i + k) = true)) ->
    fmb_loop (n + f) text (Z.of_nat i) d true (Some q)
    = fmb_loop f text (Z.of_nat (i + n)) d true (Some q).
Proof.
  induction n as [|n IH]; intros i f H.
  - rewrite Nat.add_0_r. reflexivity.
  - destruct (H 0%nat ltac:(lia)) as [c [Hc Hk]]. rewrite Nat.add_0_r in Hc, Hk.
    cbn [Nat.add]. rewrite (fmb_loop_in_string _ _ _ _ _ _ Hc Hk).
    rewrite (IH (S i) f).
    + do 2 f_equal. lia.
    + intros k Hlt. destruct (H (S k) ltac:(lia)) as [c' H'].
      exists c'. replace (S i + k)%nat with (i + S k)%nat by lia. exact H'.
Qed.

(** ** Bodies of the grammar *)

Lemma segment_cons (text : str) (i : nat) (c : char) (b : str) :
  segment text i (c :: b) ->
  nth_error text i = Some c /\ segment text (S i) b.
Proof.
  intros H. split.
  - specialize (H 0%nat). rewrite Nat.add_0_r in H. apply H. simpl. lia.
  - intros k Hk. specialize (H (S k)).
    replace (S i + k)%nat with (i + S k)%nat by lia. apply H. simpl. lia.
Qed.

Lemma segment_app (text : str) (i : nat) (b1 b2 : str) :
  segment text i (b1 ++ b2) ->
  segment text i b1 /\ segment text (i + List.length b1) b2.
Proof.
  intros H. split; intros k Hk.
  - rewrite H by (rewrite length_app; lia). apply nth_error_app1, Hk.
  - rewrite <- Nat.add_assoc, H by (rewrite length_app; lia).
    rewrite nth_error_app2 by lia. f_equal. lia.
Qed.

Lemma segment_middle (front b tail : str) :
  segment (front ++ b ++ tail) (List.length front) b.
Proof.
  intros k Hk. rewrite nth_error_shift. apply nth_error_app1, Hk.
Qed.

Lemma preceded_after (text : str) (i : nat) (c : char) :
  nth_error text i = Some c -> c <> backslash ->
  preceded_by_backslash text (S i) = false.
Proof.
  intros Hc Hne. cbn [preceded_by_backslash]. rewrite Hc.
  apply N.eqb_neq, Hne.
Qed.

Lemma is_quote_neq_backslash (q : char) : is_quote q = true -> q <> backslash.
Proof.
  intros Hq E. apply is_quote_not_backslash in Hq. subst q. discriminate.
Qed.

Lemma balanced_scan (text : str) (b : str) :
  balanced b ->
  forall (i f : nat) (d : Z),
    1 <= d -> segment text i b -> preceded_by_backslash text i = false ->
    fmb_loop (List.length b + f) text (Z.of_nat i) d false None
    = fmb_loop f text (Z.of_nat (i + List.length b)) d false None
    /\ preceded_by_backslash text (i + List.length b) = false.
Proof.
  induction 1 as [|c b Hp Hb IH|b1 b2 H1 IH1 H2 IH2|q s b Hq [Hesc Hend] Hb IH];
    intros i f d Hd Hseg Hprev.
  - rewrite Nat.add_0_r. auto.
  - apply segment_cons in Hseg. destruct Hseg as [Hc Hseg].
    destruct (plain_spec c Hp) as [_ [_ [_ Hne]]].
    cbn [List.length Nat.add]. rewrite (fmb_loop_plain _ _ _ _ _ Hc Hp).
    destruct (IH (S i) f d Hd Hseg (preceded_after _ _ _ Hc Hne)) as [E Hq].
    replace (i + S (List.length b))%nat with (S i + List.length b)%nat by lia.
    auto.
  - apply segment_cons in Hseg. destruct Hseg as [Hopen Hseg].
    apply segment_app in Hseg. destruct Hseg as [Hs1 Hseg].
    apply segment_cons in Hseg. destruct Hseg as [Hclose Hs2].
    cbn [List.length]. rewrite length_app. cbn [List.length Nat.add].
    rewrite (fmb_loop_open _ _ _ _ Hopen).
    destruct (IH1 (S i) (S (List.length b2 + f)) (d + 1)) as [E1 Hq1];
      [lia|exact Hs1|apply (preceded_after _ _ _ Hopen); discriminate|].
    replace (List.length b1 + S (List.length b2) + f)%nat
      with (List.length b1 + S (List.length b2 + f))%nat by lia.
    rewrite E1, (fmb_loop_close _ _ _ _ Hclose).
    destruct (Z.eqb_spec (d + 1 - 1) 0); [lia|].
    replace (d + 1 - 1) with d by lia.
    destruct (IH2 (S (S i + List.length b1)) f d Hd Hs2) as [E2 Hq2];
      [apply (preceded_after _ _ _ Hclose); discriminate|].
    replace (i + S (List.length b1 + S (List.length b2)))%nat
      with (S (S i + List.length b1) + List.length b2)%nat by lia.
    auto.
  - apply segment_cons in Hseg. destruct Hseg as [Hopen Hseg].
    apply segment_app in Hseg. destruct Hseg as [Hs Hseg].
    apply segment_cons in Hseg. destruct Hseg as [Hclose Hsb].
    pose proof (is_quote_neq_backslash q Hq) as Hqb.
    cbn [List.length]. rewrite length_app. cbn [List.length Nat.add].
    rewrite (fmb_loop_quote_open _ _ _ _ _ Hopen Hq Hprev).
    replace (List.length s + S (List.length b) + f)%nat
      with (List.length s + S (List.length b + f))%nat by lia.
    rewrite fmb_loop_string_body.
    2:{ intros k Hk. rewrite (Hs k Hk).
        destruct (nth_error s k) as [c|] eqn:Ec;
          [|apply nth_error_None in Ec; lia].
        exists c. split; [reflexivity|].
        destruct (N.eq_dec c q) as [->|Hne]; [right|left; exact Hne].
        pose proof (Hesc k Ec) as Hpk.
        destruct k as [|k]; [discriminate|].
        cbn [preceded_by_backslash] in Hpk.
        replace (S i + S k)%nat with (S (S i + k)) by lia.
        cbn [preceded_by_backslash]. rewrite (Hs k) by lia. exact Hpk. }
    assert (Hpc : preceded_by_backslash text (S i + List.length s) = false).
    { destruct (List.length s) as [|n] eqn:El.
      - rewrite Nat.add_0_r. apply (preceded_after _ _ _ Hopen Hqb).
      - replace (S i + S n)%nat with (S (S i + n)) by lia.
        cbn [preceded_by_backslash]. rewrite (Hs n) by lia.
        replace (S n - 1)%nat with n in Hend by lia.
        destruct (nth_error s n) as [c|]; [|reflexivity].
        destruct (N.eqb_spec c backslash); [subst; congruence|reflexivity]. }
    rewrite (fmb_loop_quote_close _ _ _ _ _ Hclose Hq Hpc).
    destruct (IH (S (S i + List.length s)) f d Hd Hsb
                (preceded_after _ _ _ Hclose Hqb)) as [E Hq'].
    replace (i + S (List.length s + S (List.length b)))%nat
      with (S (S i + List.length s) + List.length b)%nat by lia.
    auto.
Qed.

Lemma find_matching_brace_balanced_aux (pre b rest : str) :
  balanced b ->
  find_matching_brace (pre ++ lbrace :: b ++ rbrace :: rest) (len pre)
  = Ok (len pre + len b + 1).
Proof.
  intros Hb. unfold find_matching_brace.
  set (text := pre ++ lbrace :: b ++ rbrace :: rest).
  assert (Hseg : segment text (List.length pre) (lbrace :: b ++ [rbrace])).
  { unfold text.
    replace (pre ++ lbrace :: b ++ rbrace :: rest)
      with (pre ++ (lbrace :: b ++ [rbrace]) ++ rest)
      by (cbn [app]; rewrite <- app_assoc; reflexivity).
    apply segment_middle. }
  apply segment_cons in Hseg. destruct Hseg as [Hopen Hseg].
  apply segment_app in Hseg. destruct Hseg as [Hsb Hseg].
  apply segment_cons in Hseg. destruct Hseg as [Hclose _].
  replace (Z.to_nat (len text - len pre))
    with (S (List.length b + S (List.length rest)))
    by (unfold text, len; rewrite !length_app; cbn [List.length];
        rewrite length_app; cbn [List.length]; lia).
  unfold len at 1. rewrite (fmb_loop_open _ _ _ _ Hopen).
  destruct (balanced_scan text b Hb (S (List.length pre))
              (S (List.length rest)) (0 + 1)) as [E _];
    [lia|exact Hsb|apply (preceded_after _ _ _ Hopen); discriminate|].
  rewrite E, (fmb_loop_close _ _ _ _ Hclose).
  change (0 + 1 - 1 =? 0) with true. cbv iota.
  f_equal. unfold len. lia.
Qed.

(** X1: for every body of the grammar (plain characters, nested braces,
    string literals whose delimiter occurs inside only after a backslash),
    find_matching_brace called on the opening brace before the body returns
    the index of the closing brace after it, whatever text stands before the
    opening brace and after the closing one. *)
Theorem find_matching_brace_balanced (pre b rest : str) :
  balanced b ->
  find_matching_brace (pre ++ lbrace :: b ++ rbrace :: rest) (len pre)
  = Ok (len pre + len b + 1)
  /\ getitem (pre ++ lbrace :: b ++ rbrace :: rest) (len pre + len b + 1)
     = Ok rbrace.
Proof.
  intros Hb. split; [exact (find_matching_brace_balanced_aux pre b rest Hb)|].
  unfold len.
  replace (Z.of_nat (List.length pre) + Z.of_nat (List.length b) + 1)
    with (Z.of_nat (List.length (pre ++ lbrace :: b) + 0))
    by (rewrite length_app; cbn [List.length]; lia).
  apply getitem_nat.
  replace (pre ++ lbrace :: b ++ rbrace :: rest)
    with ((pre ++ lbrace :: b) ++ rbrace :: rest)
    by (rewrite <- app_assoc; reflexivity).
  rewrite nth_error_shift. reflexivity.
Qed.

Lemma find_matching_brace_balanced_witness :
  find_matching_brace
    (lit "x = " ++ lbrace :: (lit "a: { b: '}' }, c: 1") ++ rbrace :: lit " }}")
    (len (lit "x = "))
  = Ok (len (lit "x = ") + len (lit "a: { b: '}' }, c: 1") + 1)
  /\ getitem
       (lit "x = " ++ lbrace :: (lit "a: { b: '}' }, c: 1") ++ rbrace :: lit " }}")
       (len (lit "x = ") + len (lit "a: { b: '}' }, c: 1") + 1)
     = Ok rbrace.
Proof.
  apply (find_matching_brace_balanced (lit "x = ") (lit "a: { b: '}' }, c: 1")
           (lit " }}")).
  change (lit "a: { b: '}' }, c: 1")
    with (lit "a: " ++ lbrace :: (lit " b: " ++ squote :: lit "}" ++ squote :: lit " ")
            ++ rbrace :: lit ", c: 1").
  repeat (apply bal_plain; [reflexivity|]).
  apply bal_braces.
  - repeat (apply bal_plain; [reflexivity|]).
    apply (bal_string squote (lit "}") (lit " ")).
    + reflexivity.
    + split.
      * intros [|[|k]] Hk; vm_compute in Hk; discriminate.
      * vm_compute. discriminate.
    + repeat (apply bal_plain; [reflexivity|]). apply bal_nil.
  - repeat (apply bal_plain; [reflexivity|]). apply bal_nil.
Defined.

(** ** Anchors followed by a body of the grammar *)

Lemma match_here_lit (l : str) (p : regex) (s : str) :
  match_here (Lit l :: p) (l ++ s)
  = option_map (Nat.add (List.length l)) (match_here p s).
Proof.
  cbn [match_here]. rewrite starts_with_app, skipn_length_app. reflexivity.
Qed.

Lemma space_star_run (k : str -> option nat) (ws tail : str) (n : nat) :
  Forall (fun c => is_space c = true) ws ->
  match tail with
  | c :: _ => is_space c = false
  | [] => True
  end ->
  k tail = Some n ->
  space_star k (ws ++ tail) = Some (List.length ws + n)%nat.
Proof.
  intros Hws Ht Hk. induction Hws as [|c ws Hc Hws IH].
  - cbn [app List.length Nat.add].
    destruct tail as [|c tail]; cbn [space_star]; [exact Hk|].
    rewrite Ht. exact Hk.
  - cbn [app space_star List.length Nat.add]. rewrite Hc, IH. reflexivity.
Qed.

Lemma match_here_spaces (p : regex) (ws tail : str) (n : nat) :
  Forall (fun c => is_space c = true) ws ->
  match tail with
  | c :: _ => is_space c = false
  | [] => True
  end ->
  match_here p tail = Some n ->
  match_here (SpaceStar :: p) (ws ++ tail) = Some (List.length ws + n)%nat.
Proof.
  intros Hws Ht Hk. cbn [match_here]. apply space_star_run; assumption.
Qed.

Lemma extract_braces_body (pre b rest : str) (a : re_match) :
  m_end a = len pre + 1 -> balanced b ->
  extract_braces (pre ++ lbrace :: b ++ rbrace :: rest) a = Ok (Some b).
Proof.
  intros He Hb. unfold extract_braces. rewrite He.
  replace (len pre + 1 - 1) with (len pre) by lia.
  rewrite (find_matching_brace_balanced_aux pre b rest Hb). cbn [bind].
  pose proof (len_nonneg pre). pose proof (len_nonneg b).
  destruct (Z.eqb_spec (len pre + len b + 1) (-1)); [lia|].
  unfold len.
  replace (Z.of_nat (List.length pre) + 1) with (Z.of_nat (List.length pre + 1)) by lia.
  replace (Z.of_nat (List.length pre) + Z.of_nat (List.length b) + 1)
    with (Z.of_nat (List.length pre + 1 + List.length b)) by lia.
  rewrite slice_nat
    by (rewrite !length_app; cbn [List.length]; rewrite length_app;
        cbn [List.length]; lia).
  replace (pre ++ lbrace :: b ++ rbrace :: rest)
    with ((pre ++ [lbrace]) ++ b ++ rbrace :: rest)
    by (rewrite <- app_assoc; reflexivity).
  replace (List.length pre + 1)%nat with (List.length (pre ++ [lbrace]))
    by (rewrite length_app; reflexivity).
  rewrite skipn_length_app.
  replace (List.length (pre ++ [lbrace]) + List.length b
           - List.length (pre ++ [lbrace]))%nat
    with (List.length b + 0)%nat by lia.
  rewrite firstn_app_2. cbn [firstn]. rewrite app_nil_r. reflexivity.
Qed.

Lemma extract_section_at (pre name ws b rest : str) :
  Forall (fun c => is_space c = true) ws ->
  balanced b ->
  (forall k, (k < List.length pre)%nat ->
     match_here (section_pattern name)
       (skipn k (pre ++ name ++ lit ":" ++ ws ++ lbrace :: b ++ rbrace :: rest))
     = None) ->
  extract_section (pre ++ name ++ lit ":" ++ ws ++ lbrace :: b ++ rbrace :: rest)
    name
  = Ok (Some b).
Proof.
  intros Hws Hb Hno. unfold extract_section, re_search.
  rewrite (search_from_first (section_pattern name) _
             (List.length name + (1 + (List.length ws + 1)))).
  - replace (pre ++ name ++ lit ":" ++ ws ++ lbrace :: b ++ rbrace :: rest)
      with ((pre ++ name ++ lit ":" ++ ws) ++ lbrace :: b ++ rbrace :: rest)
      by (rewrite <- !app_assoc; reflexivity).
    apply extract_braces_body; [|exact Hb].
    cbn [m_end]. rewrite !len_app. unfold len. cbn [List.length lit map
      list_ascii_of_string]. lia.
  - unfold section_pattern. rewrite match_here_lit.
    change (lit ":" ++ ws ++ lbrace :: b ++ rbrace :: rest)
      with (lit ":" ++ (ws ++ lbrace :: b ++ rbrace :: rest)).
    rewrite match_here_lit.
    rewrite (match_here_spaces _ ws _ 1); [reflexivity|exact Hws|reflexivity|].
    reflexivity.
  - exact Hno.
Qed.

(** X2: for a section name that holds no character special to the pattern
    language, when the first match of the anchor of extract_section is the
    section name, a colon, any whitespace and an opening brace, and a body of
    the grammar and a closing brace follow, extract_section returns exactly
    that body, whatever comes after the closing brace. *)
Theorem extract_section_body (pre name ws b rest : str) :
  regex_literal name = true ->
  Forall (fun c => is_space c = true) ws ->
  balanced b ->
  (forall k, (k < List.length pre)%nat ->
     match_here (section_pattern name)
       (skipn k (pre ++ name ++ lit ":" ++ ws ++ lbrace :: b ++ rbrace :: rest))
     = None) ->
  extract_section (pre ++ name ++ lit ":" ++ ws ++ lbrace :: b ++ rbrace :: rest)
    name
  = Ok (Some b).
Proof.
  intros _ Hws Hb Hno. exact (extract_section_at pre name ws b rest Hws Hb Hno).
Qed.

Lemma extract_section_body_witness :
  extract_section
    (lit "x; " ++ lit "computed" ++ lit ":" ++ lit "  "
       ++ lbrace :: lit " n() { return 2; } " ++ rbrace :: lit ", }")
    (lit "computed")
  = Ok (Some (lit " n() { return 2; } ")).
Proof.
  apply (extract_section_body (lit "x; ") (lit "computed") (lit "  ")
           (lit " n() { return 2; } ") (lit ", }")).
  - reflexivity.
  - repeat constructor.
  - change (lit " n() { return 2; } ")
      with (lit " n() " ++ lbrace :: lit " return 2; " ++ rbrace :: lit " ").
    repeat (apply bal_plain; [reflexivity|]).
    apply bal_braces; repeat (apply bal_plain; [reflexivity|]); apply bal_nil.
  - intros k Hk. do 3 (destruct k as [|k]; [reflexivity|]). simpl in Hk. lia.
Defined.

(** X3: for a hook name that holds no character special to the pattern
    language, when the first match of the anchor of extract_lifecycle is the
    hook name, a pair of parentheses, any whitespace and an opening brace,
    and a body of the grammar and a closing brace follow, extract_lifecycle
    returns exactly that body. *)
Theorem extract_lifecycle_body (pre name ws b rest : str) :
  regex_literal name = true ->
  Forall (fun c => is_space c = true) ws ->
  balanced b ->
  (forall k, (k < List.length pre)%nat ->
     match_here (lifecycle_pattern name)
       (skipn k (pre ++ name ++ lit "()" ++ ws ++ lbrace :: b ++ rbrace :: rest))
     = None) ->
  extract_lifecycle
    (pre ++ name ++ lit "()" ++ ws ++ lbrace :: b ++ rbrace :: rest) name
  = Ok (Some b).
Proof.
  intros _ Hws Hb Hno. unfold extract_lifecycle, re_search.
  rewrite (search_from_first (lifecycle_pattern name) _
             (List.length name + (2 + (List.length ws + 1)))).
  - replace (pre ++ name ++ lit "()" ++ ws ++ lbrace :: b ++ rbrace :: rest)
      with ((pre ++ name ++ lit "()" ++ ws) ++ lbrace :: b ++ rbrace :: rest)
      by (rewrite <- !app_assoc; reflexivity).
    apply extract_braces_body; [|exact Hb].
    cbn [m_end]. rewrite !len_app. unfold len. cbn [List.length lit map
      list_ascii_of_string]. lia.
  - unfold lifecycle_pattern. rewrite match_here_lit.
    change (lit "()" ++ ws ++ lbrace :: b ++ rbrace :: rest)
      with (lit "()" ++ (ws ++ lbrace :: b ++ rbrace :: rest)).
    rewrite match_here_lit.
    rewrite (match_here_spaces _ ws _ 1); [reflexivity|exact Hws|reflexivity|].
    reflexivity.
  - exact Hno.
Qed.

Lemma extract_lifecycle_body_witness :
  extract_lifecycle
    (lit "}, " ++ lit "mounted" ++ lit "()" ++ lit " "
       ++ lbrace :: lit " this.load('{'); " ++ rbrace :: lit " }")
    (lit "mounted")
  = Ok (Some (lit " this.load('{'); ")).
Proof.
  apply (extract_lifecycle_body (lit "}, ") (lit "mounted") (lit " ")
           (lit " this.load('{'); ") (lit " }")).
  - reflexivity.
  - repeat constructor.
  - change (lit " this.load('{'); ")
      with (lit " this.load(" ++ squote :: lit "{" ++ squote :: lit "); ").
    repeat (apply bal_plain; [reflexivity|]).
    apply (bal_string squote (lit "{") (lit "); ")).
    + reflexivity.
    + split.
      * intros [|[|k]] Hk; vm_compute in Hk; discriminate.
      * vm_compute. discriminate.
    + repeat (apply bal_plain; [reflexivity|]). apply bal_nil.
  - intros k Hk. do 3 (destruct k as [|k]; [reflexivity|]). simpl in Hk. lia.
Defined.

(** X4: when the first match of the anchor of extract_data is data(),
    an opening brace, return and an opening brace, with any whitespace
    between them, and a body of the grammar and a closing brace follow,
    extract_data returns exactly that body. *)
Theorem extract_data_body (pre ws1 ws2 ws3 b rest : str) :
  Forall (fun c => is_space c = true) ws1 ->
  Forall (fun c => is_space c = true) ws2 ->
  Forall (fun c => is_space c = true) ws3 ->
  balanced b ->
  (forall k, (k < List.length pre)%nat ->
     match_here data_pattern
       (skipn k (pre ++ lit "data()" ++ ws1 ++ lbrace :: ws2 ++ lit "return"
                   ++ ws3 ++ lbrace :: b ++ rbrace :: rest))
     = None) ->
  extract_data
    (pre ++ lit "data()" ++ ws1 ++ lbrace :: ws2 ++ lit "return"
       ++ ws3 ++ lbrace :: b ++ rbrace :: rest)
  = Ok (Some b).
Proof.
  intros H1 H2 H3 Hb Hno. unfold extract_data, re_search.
  rewrite (search_from_first data_pattern _
             (6 + (List.length ws1 + (1 + (List.length ws2
                + (6 + (List.length ws3 + 1))))))).
  - replace (pre ++ lit "data()" ++ ws1 ++ lbrace :: ws2 ++ lit "return"
               ++ ws3 ++ lbrace :: b ++ rbrace :: rest)
      with ((pre ++ lit "data()" ++ ws1 ++ lbrace :: ws2 ++ lit "return" ++ ws3)
              ++ lbrace :: b ++ rbrace :: rest)
      by (rewrite <- !app_assoc; cbn [app]; rewrite <- !app_assoc; reflexivity).
    apply extract_braces_body; [|exact Hb].
    cbn [m_end]. rewrite !len_app. unfold len.
    cbn [List.length lit map list_ascii_of_string]. rewrite length_app.
    cbn [List.length]. rewrite !length_app. cbn [List.length]. lia.
  - unfold data_pattern.
    change (lit "data()" ++ ws1 ++ lbrace :: ws2 ++ lit "return"
              ++ ws3 ++ lbrace :: b ++ rbrace :: rest)
      with (lit "data()" ++ (ws1 ++ [lbrace] ++ (ws2 ++ lit "return"
              ++ (ws3 ++ [lbrace] ++ (b ++ rbrace :: rest))))).
    rewrite match_here_lit.
    rewrite (match_here_spaces _ ws1 _
               (1 + (List.length ws2 + (6 + (List.length ws3 + 1)))));
      [reflexivity|exact H1|reflexivity|].
    rewrite match_here_lit.
    rewrite (match_here_spaces _ ws2 _ (6 + (List.length ws3 + 1)));
      [reflexivity|exact H2|reflexivity|].
    rewrite match_here_lit.
    rewrite (match_here_spaces _ ws3 _ 1); [reflexivity|exact H3|reflexivity|].
    rewrite match_here_lit. reflexivity.
  - exact Hno.
Qed.

Lemma extract_data_body_witness :
  extract_data
    (lit "a " ++ lit "data()" ++ lit " " ++ lbrace :: [10%N; 32%N] ++ lit "return"
       ++ lit " " ++ lbrace :: lit " list: [], o: {} " ++ rbrace :: lit "; }")
  = Ok (Some (lit " list: [], o: {} ")).
Proof.
  apply (extract_data_body (lit "a ") (lit " ") [10%N; 32%N] (lit " ")
           (lit " list: [], o: {} ") (lit "; }")).
  - repeat constructor.
  - repeat constructor.
  - repeat constructor.
  - change (lit " list: [], o: {} ")
      with (lit " list: [], o: " ++ lbrace :: [] ++ rbrace :: lit " ").
    repeat (apply bal_plain; [reflexivity|]).
    apply bal_braces; repeat (apply bal_plain; [reflexivity|]); apply bal_nil.
  - intros k Hk. do 2 (destruct k as [|k]; [reflexivity|]). simpl in Hk. lia.
Defined.

(** ** What the scanner returns, in full *)

Lemma returns_at_in_range (text : str) (start n : nat) :
  returns_at text start n = true -> (start + n < List.length text)%nat.
Proof.
  unfold returns_at. destruct (nth_error text (start + n)) eqn:E; [|discriminate].
  intros _. apply nth_error_Some. congruence.
Qed.

Lemma returns_at_closes (text : str) (start n : nat) :
  returns_at text start n = true <-> closes_at text start (start + n).
Proof.
  unfold returns_at, closes_at, in_quote, depth_upto.
  replace (start + n - start)%nat with n by lia.
  destruct (nth_error text (start + n)) as [c|].
  - destruct (quote_after text start (S n)) as [q|].
    + split; [discriminate|]. intros [_ [H _]]. exfalso. apply H. discriminate.
    + rewrite andb_true_iff, N.eqb_eq, Z.eqb_eq. split.
      * intros [-> Hd]. split; [reflexivity|]. split; [|exact Hd].
        intros H. apply H. reflexivity.
      * intros [E [_ Hd]]. injection E as ->. auto.
  - split; [discriminate|]. intros [H _]. discriminate.
Qed.

Lemma returns_first_or_none (text : str) (start : nat) :
  (exists m, returns_at text start m = true
             /\ forall k, (k < m)%nat -> returns_at text start k = false)
  \/ (forall k, returns_at text start k = false).
Proof.
  assert (H : forall b,
    (exists m, (m < b)%nat /\ returns_at text start m = true
               /\ forall k, (k < m)%nat -> returns_at text start k = false)
    \/ (forall k, (k < b)%nat -> returns_at text start k = false)).
  { induction b as [|b [IH|IH]].
    - right. intros k Hk. lia.
    - left. destruct IH as [m [Hm Hr]]. exists m. split; [lia|exact Hr].
    - destruct (returns_at text start b) eqn:E.
      + left. exists b. split; [lia|]. split; [exact E|exact IH].
      + right. intros k Hk. destruct (Nat.eq_dec k b); [subst; exact E|].
        apply IH. lia. }
  destruct (H (List.length text)) as [[m [_ Hm]]|Hno]; [left; eauto|].
  right. intros k. destruct (returns_at text start k) eqn:E; [|reflexivity].
  pose proof (returns_at_in_range _ _ _ E). rewrite Hno in E by lia.
  discriminate.
Qed.

(** ** The scanner on well-formed input *)









(** X5: find_matching_brace returns an index j exactly when j is the first
    position, from the start index on, that holds a closing brace outside
    every string with the quote-aware depth back to zero; it returns -1
    exactly when no position does.  No assumption is made on the text: the
    start index need not hold an opening brace. *)
Theorem scanner_result_iff (text : str) (start j : nat) :
  (find_matching_brace text (Z.of_nat start) = Ok (Z.of_nat j)
   <-> (start <= j)%nat /\ closes_at text start j
       /\ forall k, (start <= k < j)%nat -> ~ closes_at text start k)
  /\ (find_matching_brace text (Z.of_nat start) = Ok (-1)
      <-> forall k, (start <= k)%nat -> ~ closes_at text start k).
Proof.
  destruct (returns_first_or_none text start) as [[m [Hm Hno]]|Hno].
  - pose proof (find_matching_brace_first text start m Hm Hno) as E.
    rewrite E. split; split.
    + intros H. injection H as H. apply Nat2Z.inj in H. subst j.
      split; [lia|]. split; [apply returns_at_closes, Hm|].
      intros k Hk Hc. replace k with (start + (k - start))%nat in Hc by lia.
      apply returns_at_closes in Hc. rewrite Hno in Hc by lia. discriminate.
    + intros [Hj [Hc Hn]]. do 2 f_equal.
      replace j with (start + (j - start))%nat in Hc by lia.
      apply returns_at_closes in Hc.
      destruct (Nat.lt_trichotomy m (j - start)) as [Hlt|[Heq|Hgt]]; [|lia|].
      * exfalso. apply (Hn (start + m)%nat); [lia|].
        apply returns_at_closes, Hm.
      * rewrite Hno in Hc by lia. discriminate.
    + intros H. injection H as H. lia.
    + intros H. exfalso. apply (H (start + m)%nat); [lia|].
      apply returns_at_closes, Hm.
  - pose proof (find_matching_brace_exhausts text start Hno) as E.
    rewrite E. split; split.
    + intros H. injection H as H. lia.
    + intros [Hj [Hc _]]. exfalso.
      replace j with (start + (j - start))%nat in Hc by lia.
      apply returns_at_closes in Hc. rewrite Hno in Hc. discriminate.
    + intros _ k Hk Hc. replace k with (start + (k - start))%nat in Hc by lia.
      apply returns_at_closes in Hc. rewrite Hno in Hc. discriminate.
    + reflexivity.
Qed.

(** ** The scan looks at nothing after the match and nothing before the
    character in front of the start index *)

Lemma preceded_app (t rest : str) (k : nat) :
  (k <= List.length t)%nat ->
  preceded_by_backslash (t ++ rest) k = preceded_by_backslash t k.
Proof.
  intros Hk. destruct k as [|k]; [reflexivity|].
  cbn [preceded_by_backslash]. rewrite nth_error_app1 by lia. reflexivity.
Qed.

Lemma quote_after_app (t rest : str) (s : nat) :
  forall n, (s + n <= List.length t)%nat ->
            quote_after (t ++ rest) s n = quote_after t s n.
Proof.
  induction n as [|n IH]; intros Hn; [reflexivity|].
  cbn [quote_after]. rewrite IH by lia. unfold quote_next.
  rewrite nth_error_app1, preceded_app by lia. reflexivity.
Qed.

Lemma depth_after_app (t rest : str) (s : nat) :
  forall n, (s + n <= List.length t)%nat ->
            depth_after (t ++ rest) s n = depth_after t s n.
Proof.
  induction n as [|n IH]; intros Hn; [reflexivity|].
  change (depth_after (t ++ rest) s (S n))
    with (depth_after (t ++ rest) s n
          + brace_delta (t ++ rest) (s + n) (quote_after (t ++ rest) s (S n))).
  rewrite IH, quote_after_app by lia.
  unfold brace_delta at 1. rewrite nth_error_app1 by lia. reflexivity.
Qed.

Lemma returns_at_app (t rest : str) (s n : nat) :
  (s + n < List.length t)%nat ->
  returns_at (t ++ rest) s n = returns_at t s n.
Proof.
  intros Hn. unfold returns_at.
  rewrite nth_error_app1, quote_after_app, depth_after_app by lia.
  reflexivity.
Qed.

(** X6: a match, once found, does not depend on what follows it: when
    find_matching_brace returns an index on a text, it returns the same
    index on that text with anything appended. *)
Theorem found_match_ignores_suffix (t rest : str) (s j : nat) :
  find_matching_brace t (Z.of_nat s) = Ok (Z.of_nat j) ->
  find_matching_brace (t ++ rest) (Z.of_nat s) = Ok (Z.of_nat j).
Proof.
  intros H.
  destruct (returns_first_or_none t s) as [[m [Hm Hno]]|Hno].
  - rewrite (find_matching_brace_first t s m Hm Hno) in H.
    rewrite <- H. pose proof (returns_at_in_range _ _ _ Hm) as Hlt.
    apply find_matching_brace_first.
    + rewrite returns_at_app by lia. exact Hm.
    + intros k Hk. rewrite returns_at_app by lia. apply Hno, Hk.
  - rewrite (find_matching_brace_exhausts t s Hno) in H.
    injection H as H. lia.
Qed.

Lemma found_match_ignores_suffix_witness :
  find_matching_brace (lit "{a{b}c}" ++ lit "d}}{") (Z.of_nat 0)
  = Ok (Z.of_nat 6).
Proof.
  apply (found_match_ignores_suffix (lit "{a{b}c}") (lit "d}}{") 0 6).
  reflexivity.
Defined.

(** X7: from a start index that is not the first of the text, the scan
    does not depend on what stands before the character in front of the
    start index: with any text put before, find_matching_brace returns the
    same answer, a found index moved by the length of that text. *)
Theorem scan_ignores_prefix (pre t : str) (s : nat) (r : Z) :
  (1 <= s)%nat ->
  find_matching_brace t (Z.of_nat s) = Ok r ->
  find_matching_brace (pre ++ t) (len pre + Z.of_nat s)
  = Ok (if r =? -1 then -1 else len pre + r).
Proof.
  intros Hs H. unfold len. rewrite <- Nat2Z.inj_add.
  destruct (returns_first_or_none t s) as [[m [Hm Hno]]|Hno].
  - rewrite (find_matching_brace_first t s m Hm Hno) in H.
    injection H as <-.
    destruct (Z.eqb_spec (Z.of_nat (s + m)) (-1)); [lia|].
    rewrite (find_matching_brace_first (pre ++ t) (List.length pre + s) m).
    + f_equal. lia.
    + rewrite returns_at_shift by exact Hs. exact Hm.
    + intros k Hk. rewrite returns_at_shift by exact Hs. apply Hno, Hk.
  - rewrite (find_matching_brace_exhausts t s Hno) in H.
    injection H as <-. cbn [Z.eqb].
    apply find_matching_brace_exhausts.
    intros k. rewrite returns_at_shift by exact Hs. apply Hno.
Qed.

Lemma scan_ignores_prefix_witness :
  find_matching_brace (lit "}}'{" ++ lit ":{a{b}c}") (len (lit "}}'{") + Z.of_nat 1)
  = Ok (if 7 =? -1 then -1 else len (lit "}}'{") + 7).
Proof.
  apply (scan_ignores_prefix (lit "}}'{") (lit ":{a{b}c}") 1 7).
  - lia.
  - reflexivity.
Defined.

(** ** Start indices outside the text *)

(** X8: a start index at or past the end of the text gives -1, the text is
    not read; a start index below minus the length of the text makes the
    first subscript fail, the call raises IndexError. *)
Theorem find_matching_brace_outside (text : str) (start_pos : Z) :
  (len text <= start_pos -> find_matching_brace text start_pos = Ok (-1))
  /\ (start_pos < - len text -> find_matching_brace text start_pos = IndexError).
Proof.
  pose proof (len_nonneg text) as Hl. split; intros H; unfold find_matching_brace.
  - replace (Z.to_nat (len text - start_pos)) with O by lia.
    rewrite fmb_loop_0. destruct (Z.ltb_spec start_pos (len text)); [lia|reflexivity].
  - destruct (Z.to_nat (len text - start_pos)) as [|f] eqn:Ef; [lia|].
    rewrite fmb_loop_S. destruct (Z.ltb_spec start_pos (len text)); [|lia].
    unfold getitem. destruct (Z.ltb_spec start_pos 0); [|lia].
    destruct (Z.leb_spec 0 (start_pos + len text)); [lia|]. reflexivity.
Qed.

Lemma find_matching_brace_outside_witness :
  find_matching_brace (lit "{}") 2 = Ok (-1)
  /\ find_matching_brace (lit "{}") (-3) = IndexError.
Proof.
  split.
  - apply (proj1 (find_matching_brace_outside (lit "{}") 2)). vm_compute.
    discriminate.
  - apply (proj2 (find_matching_brace_outside (lit "{}") (-3))). reflexivity.
Defined.

(** ** What unescaping keeps *)

Lemma drop_escapes_no_backslash (special : char -> bool) (s : str) :
  (forall c, In c s -> c <> backslash) -> drop_escapes special s = s.
Proof.
  induction s as [|c s IH]; intros H; [reflexivity|].
  rewrite drop_escapes_keep by (apply H; left; reflexivity).
  rewrite IH; [reflexivity|]. intros x Hx. apply H. right. exact Hx.
Qed.

Lemma filter_cons_eq (f : char -> bool) (c : char) (a b : str) :
  filter f a = filter f b -> filter f (c :: a) = filter f (c :: b).
Proof.
  intros H. cbn [filter]. rewrite H. reflexivity.
Qed.

Lemma drop_escapes_keeps (special : char -> bool) :
  forall n s, (List.length s <= n)%nat ->
    filter (fun c => negb (c =? backslash)%N) (drop_escapes special s)
    = filter (fun c => negb (c =? backslash)%N) s
    /\ (List.length (drop_escapes special s) <= List.length s)%nat.
Proof.
  induction n as [|n IH]; intros [|c [|d r]] Hn; simpl in Hn;
    try (split; [reflexivity|simpl; lia]); try lia.
  rewrite drop_escapes_two.
  destruct ((c =? backslash)%N && special d) eqn:E.
  - apply andb_true_iff in E. destruct E as [Ec _].
    destruct (IH r ltac:(lia)) as [Hf Hl].
    cbn [filter List.length]. rewrite Ec. cbn [negb]. rewrite Hf.
    split; [reflexivity|lia].
  - destruct (IH (d :: r) ltac:(simpl; lia)) as [Hf Hl].
    split.
    + apply filter_cons_eq, Hf.
    + cbn [List.length] in *. lia.
Qed.

(** X9: the unescaping of line 58 removes backslashes and nothing else:
    the characters of its result that are not backslashes are those of its
    argument, in the same order; the result is never longer than the
    argument; and an argument without a backslash is returned as it is. *)
Theorem unescape_removes_only_backslashes (s : str) :
  filter (fun c => negb (c =? backslash)%N) (unescape s)
  = filter (fun c => negb (c =? backslash)%N) s
  /\ (List.length (unescape s) <= List.length s)%nat
  /\ ((forall c, In c s -> c <> backslash) -> unescape s = s).
Proof.
  rewrite unescape_one_pass.
  destruct (drop_escapes_keeps escapable (List.length s) s (Nat.le_refl _))
    as [Hf Hl].
  split; [exact Hf|]. split; [exact Hl|].
  apply drop_escapes_no_backslash.
Qed.

Lemma unescape_removes_only_backslashes_witness :
  unescape (lit "<p class='a'>`x`</p>") = lit "<p class='a'>`x`</p>".
Proof.
  apply (proj2 (proj2 (unescape_removes_only_backslashes
                         (lit "<p class='a'>`x`</p>")))).
  intros c Hc E. subst c. vm_compute in Hc.
  repeat (destruct Hc as [Hc|Hc]; [discriminate|]). exact Hc.
Defined.

(** ** A template that nothing terminates *)

(** X10: when the anchor of extract_template is found but neither a comma
    nor a closing brace stands anywhere after the anchor, extract_template
    returns None, however the template literal is closed: a template that
    ends the buffer, or that only a semicolon follows, is not extracted. *)
Theorem extract_template_needs_terminator (content : str) (a : re_match) :
  re_search template_pattern content = Some a ->
  (forall i, m_end a < i ->
             getitem content i <> Ok comma /\ getitem content i <> Ok rbrace) ->
  extract_template content = Ok None.
Proof.
  intros Hs Hno. unfold extract_template. rewrite Hs.
  pose proof (re_search_bounds _ _ _ Hs) as Hb. simpl in Hb.
  apply (template_scan_absent content (m_end a)
           (Z.to_nat (len content - m_end a))); [lia|lia|].
  intros j Hj [_ [_ Hl]].
  apply lookahead_spec in Hl; [|lia].
  destruct Hl as [k [Hk Hc]].
  destruct (Hno (j + k) ltac:(lia)) as [H1 H2].
  destruct Hc; contradiction.
Qed.

Lemma extract_template_needs_terminator_witness :
  extract_template (lit "template: \`<p>hi</p>`; done") = Ok None.
Proof.
  apply (extract_template_needs_terminator (lit "template: \`<p>hi</p>`; done")
           {| m_start := 0; m_end := 12 |}).
  - reflexivity.
  - intros i Hi. cbn [m_end] in Hi.
    destruct (Z_lt_ge_dec i 28) as [Hlt|Hge].
    + assert (Hc : i = 13 \/ i = 14 \/ i = 15 \/ i = 16 \/ i = 17 \/ i = 18
                   \/ i = 19 \/ i = 20 \/ i = 21 \/ i = 22 \/ i = 23 \/ i = 24
                   \/ i = 25 \/ i = 26 \/ i = 27) by lia.
      repeat (destruct Hc as [->|Hc]; [split; vm_compute; discriminate|]).
      subst i. split; vm_compute; discriminate.
    + split; intros H; (apply getitem_Ok_range in H; [|lia]);
        change (len (lit "template: \`<p>hi</p>`; done")) with 28 in H; lia.
Defined.

(** ** What the driver writes *)

Lemma splitlines_from_nonempty (s cur : str) :
  cur <> [] -> (1 <= List.length (splitlines_from cur s))%nat.
Proof.
  revert cur. induction s as [|c s IH]; intros cur Hcur.
  - destruct cur; [contradiction|]. simpl. lia.
  - cbn [splitlines_from]. destruct (is_linebreak c).
    + destruct s as [|d s']; [simpl; lia|].
      destruct ((c =? 13)%N && (d =? 10)%N); simpl; lia.
    + apply IH. discriminate.
Qed.

Lemma splitlines_nonempty (t : str) :
  t <> [] -> (1 <= List.length (splitlines t))%nat.
Proof.
  intros Ht. destruct t as [|c s]; [contradiction|].
  unfold splitlines. cbn [splitlines_from]. destruct (is_linebreak c).
  - destruct s as [|d s']; [simpl; lia|].
    destruct ((c =? 13)%N && (d =? 10)%N); simpl; lia.
  - apply splitlines_from_nonempty. discriminate.
Qed.

(** X11: among the effects the driver asks for on a given content
    (whether the operating system carries them out is outside the model),
    every file written is one of the five fixed output files, is not empty,
    and has at least one line, so that no confirmation reports zero lines,
    and the confirmation of that section is printed with it. *)
Theorem driver_writes (content : str) (out : list effect) :
  driver content = Ok out ->
  forall path t,
    In (WriteFile path t) out ->
    In path ["frontend/vue-template.html"; "frontend/vue-data.js";
             "frontend/vue-computed.js"; "frontend/vue-methods.js";
             "frontend/vue-mounted.js"]%string
    /\ t <> []
    /\ (1 <= List.length (splitlines t))%nat
    /\ In (Print (confirmation
                    (match path with
                     | "frontend/vue-template.html" => "template"
                     | "frontend/vue-data.js" => "data"
                     | "frontend/vue-computed.js" => "computed"
                     | "frontend/vue-methods.js" => "methods"
                     | _ => "mounted"
                     end)%string t)) out.
Proof.
  intros Hrun.
  destruct (extract_template_total content) as [template Ht].
  destruct (extract_data_total content) as [data Hd].
  destruct (extract_section_total content (lit "computed")) as [computed Hc].
  destruct (extract_section_total content (lit "methods")) as [methods Hm].
  destruct (extract_lifecycle_total content (lit "mounted")) as [mounted Hl].
  unfold driver in Hrun. rewrite Ht, Hd, Hc, Hm, Hl in Hrun. cbn [bind] in Hrun.
  injection Hrun as Hrun. rewrite <- Hrun. clear Hrun out.
  intros path t Hin. rewrite in_app_iff in Hin. cbn [In] in Hin.
  destruct Hin as [Hin|[Hin|[]]]; [|discriminate].
  rewrite !in_save in Hin. cbn [In] in Hin.
  split_cases Hin; try discriminate;
    match goal with
    | E : WriteFile _ _ = WriteFile _ _ |- _ => injection E as -> ->
    end;
    (split; [cbn [In]; auto 10|]);
    (split; [assumption|]);
    (split; [apply splitlines_nonempty; assumption|]);
    rewrite in_app_iff; left; rewrite !in_save; cbn [In]; eauto 15.
Qed.

Example driver_writes_ex :
  driver (lit "mounted() { a(); b(); }") =
  Ok ([WriteFile "frontend/vue-mounted.js" (lit " a(); b(); ");
       Print (check_mark :: lit " Extracted mounted (1 lines)")]
      ++ [Print done_line]).
Proof. vm_compute. reflexivity. Qed.

(** ** The shape of an extracted span *)

Lemma space_star_last (k : str -> option nat) (l : str) :
  (forall s n, k s = Some n ->
     (List.length l <= n)%nat
     /\ firstn (List.length l) (skipn (n - List.length l) s) = l) ->
  forall s n, space_star k s = Some n ->
    (List.length l <= n)%nat
    /\ firstn (List.length l) (skipn (n - List.length l) s) = l.
Proof.
  intros Hk. induction s as [|c s IH]; intros n H; cbn [space_star] in H.
  - apply Hk, H.
  - destruct (is_space c); [|apply Hk, H].
    destruct (space_star k s) as [m|] eqn:E; [|apply Hk, H].
    injection H as <-. destruct (IH m eq_refl) as [Hle Hf].
    split; [lia|].
    replace (S m - List.length l)%nat with (S (m - List.length l)) by lia.
    exact Hf.
Qed.

(** A match of a pattern that ends with a literal ends with that text. *)
Lemma match_here_last (l : str) (p : regex) :
  forall s n, match_here (p ++ [Lit l]) s = Some n ->
    (List.length l <= n)%nat
    /\ firstn (List.length l) (skipn (n - List.length l) s) = l.
Proof.
  induction p as [|[l'|] p IH]; intros s n H.
  - cbn [app match_here] in H.
    destruct (starts_with l s) eqn:El; [|discriminate].
    cbn [option_map] in H. injection H as <-.
    split; [lia|].
    replace (List.length l + 0 - List.length l)%nat with 0%nat by lia.
    apply starts_with_firstn, El.
  - cbn [app match_here] in H.
    destruct (starts_with l' s) eqn:El; [|discriminate].
    destruct (match_here (p ++ [Lit l]) (skipn (List.length l') s)) as [m|] eqn:E;
      [|discriminate].
    cbn [option_map] in H. injection H as <-.
    destruct (IH _ _ E) as [Hle Hf]. split; [lia|].
    rewrite skipn_skipn in Hf.
    replace (List.length l' + m - List.length l)%nat
      with (m - List.length l + List.length l')%nat by lia.
    exact Hf.
  - cbn [app match_here] in H. exact (space_star_last _ l IH s n H).
Qed.

Lemma anchor_ends_with_brace (p : regex) (content : str) (a : re_match) :
  re_search (p ++ [Lit [lbrace]]) content = Some a ->
  1 <= m_end a <= len content /\ getitem content (m_end a - 1) = Ok lbrace.
Proof.
  intros Hs. apply search_from_sound in Hs.
  destruct Hs as [k [n [_ [He [Hk [Hm _]]]]]].
  pose proof (match_here_bounds _ _ _ Hm) as [_ Hb]. rewrite length_skipn in Hb.
  destruct (match_here_last _ _ _ _ Hm) as [Hle Hf].
  cbn [List.length] in Hle, Hf. rewrite skipn_skipn in Hf.
  split; [unfold len; lia|].
  replace (m_end a - 1) with (Z.of_nat (n - 1 + k)) by lia.
  apply getitem_nat.
  destruct (nth_error content (n - 1 + k)) as [c|] eqn:Ec.
  - rewrite (skipn_cons_nth _ _ _ Ec) in Hf. injection Hf as ->. reflexivity.
  - rewrite (skipn_nil_nth _ _ Ec) in Hf. discriminate.
Qed.

Lemma len_slice (t : str) (a b : Z) :
  0 <= a <= b -> b <= len t -> len (slice t a b) = b - a.
Proof.
  intros Hab Hb. rewrite slice_nonneg by lia. unfold len in *.
  rewrite firstn_length_le by (rewrite length_skipn; lia). lia.
Qed.

Lemma extract_braces_shape (content : str) (a : re_match) (t : str) :
  1 <= m_end a <= len content ->
  getitem content (m_end a - 1) = Ok lbrace ->
  extract_braces content a = Ok (Some t) ->
  exists j,
    find_matching_brace content (m_end a - 1) = Ok j
    /\ m_end a <= j < len content
    /\ getitem content j = Ok rbrace
    /\ t = slice content (m_end a) j
    /\ len t = j - m_end a.
Proof.
  intros Hb Hopen H. unfold extract_braces in H.
  destruct (find_matching_brace_range_aux content (m_end a - 1))
    as [j [Hj Hr]]; [lia|].
  rewrite Hj in H. cbn [bind] in H.
  destruct (Z.eqb_spec j (-1)); [discriminate|].
  destruct Hr as [Hr|[Hr Hc]]; [contradiction|].
  injection H as <-. exists j.
  assert (Hne : j <> m_end a - 1)
    by (intros ->; rewrite Hc in Hopen; discriminate).
  replace (m_end a - 1 + 1) with (m_end a) by lia.
  split; [exact Hj|]. split; [lia|]. split; [exact Hc|].
  split; [reflexivity|]. apply len_slice; lia.
Qed.

(** X12: whenever extract_data returns a span, or extract_section or
    extract_lifecycle does for a name that holds no character special to the
    pattern language, the anchor was found and ends with an opening brace, the
    scanner returned an index j after it that holds a closing brace, and the
    span is the text strictly between the two braces: its length is j minus
    the index after the opening brace. *)
Theorem brace_span_shape (content name t : str) :
  (regex_literal name = true ->
   extract_section content name = Ok (Some t) ->
   exists a j,
     re_search (section_pattern name) content = Some a
     /\ getitem content (m_end a - 1) = Ok lbrace
     /\ find_matching_brace content (m_end a - 1) = Ok j
     /\ m_end a <= j < len content
     /\ getitem content j = Ok rbrace
     /\ t = slice content (m_end a) j
     /\ len t = j - m_end a)
  /\ (extract_data content = Ok (Some t) ->
      exists a j,
        re_search data_pattern content = Some a
        /\ getitem content (m_end a - 1) = Ok lbrace
        /\ find_matching_brace content (m_end a - 1) = Ok j
        /\ m_end a <= j < len content
        /\ getitem content j = Ok rbrace
        /\ t = slice content (m_end a) j
        /\ len t = j - m_end a)
  /\ (regex_literal name = true ->
      extract_lifecycle content name = Ok (Some t) ->
      exists a j,
        re_search (lifecycle_pattern name) content = Some a
        /\ getitem content (m_end a - 1) = Ok lbrace
        /\ find_matching_brace content (m_end a - 1) = Ok j
        /\ m_end a <= j < len content
        /\ getitem content j = Ok rbrace
        /\ t = slice content (m_end a) j
        /\ len t = j - m_end a).
Proof.
  split; [|split].
  - intros _. unfold extract_section.
    destruct (re_search (section_pattern name) content) as [a|] eqn:Hs;
      [|discriminate].
    intros H.
    destruct (anchor_ends_with_brace
                [Lit name; Lit (lit ":"); SpaceStar] content a Hs) as [Hb Ho].
    destruct (extract_braces_shape content a t Hb Ho H) as [j Hj].
    exists a, j. tauto.
  - unfold extract_data.
    destruct (re_search data_pattern content) as [a|] eqn:Hs; [|discriminate].
    intros H.
    destruct (anchor_ends_with_brace
                [Lit (lit "data()"); SpaceStar; Lit [lbrace]; SpaceStar;
                 Lit (lit "return"); SpaceStar] content a Hs) as [Hb Ho].
    destruct (extract_braces_shape content a t Hb Ho H) as [j Hj].
    exists a, j. tauto.
  - intros _. unfold extract_lifecycle.
    destruct (re_search (lifecycle_pattern name) content) as [a|] eqn:Hs;
      [|discriminate].
    intros H.
    destruct (anchor_ends_with_brace
                [Lit name; Lit (lit "()"); SpaceStar] content a Hs) as [Hb Ho].
    destruct (extract_braces_shape content a t Hb Ho H) as [j Hj].
    exists a, j. tauto.
Qed.

Lemma brace_span_shape_witness :
  (exists a j,
     re_search data_pattern (lit "data(){return{a:{}}}") = Some a
     /\ getitem (lit "data(){return{a:{}}}") (m_end a - 1) = Ok lbrace
     /\ find_matching_brace (lit "data(){return{a:{}}}") (m_end a - 1) = Ok j
     /\ m_end a <= j < len (lit "data(){return{a:{}}}")
     /\ getitem (lit "data(){return{a:{}}}") j = Ok rbrace
     /\ lit "a:{}" = slice (lit "data(){return{a:{}}}") (m_end a) j
     /\ len (lit "a:{}") = j - m_end a)
  /\ (exists a j,
        re_search (section_pattern (lit "methods")) (lit "methods: {f(){}} }")
        = Some a
        /\ getitem (lit "methods: {f(){}} }") (m_end a - 1) = Ok lbrace
        /\ find_matching_brace (lit "methods: {f(){}} }") (m_end a - 1) = Ok j
        /\ m_end a <= j < len (lit "methods: {f(){}} }")
        /\ getitem (lit "methods: {f(){}} }") j = Ok rbrace
        /\ lit "f(){}" = slice (lit "methods: {f(){}} }") (m_end a) j
        /\ len (lit "f(){}") = j - m_end a).
Proof.
  split.
  - apply (proj1 (proj2 (brace_span_shape (lit "data(){return{a:{}}}") []
                           (lit "a:{}")))).
    reflexivity.
  - apply (proj1 (brace_span_shape (lit "methods: {f(){}} }") (lit "methods")
                    (lit "f(){}"))); reflexivity.
Defined.

(** ** A string that ends with a backslash *)

(** X13: the scanner takes a quote that follows a backslash as escaped,
    also when that backslash is itself escaped: when the string after the
    opening brace ends with a backslash and its delimiter does not occur
    again, the scan stays inside the string to the end of the text and
    find_matching_brace returns -1, whatever braces follow. *)
Theorem backslash_before_closing_quote (pre s rest : str) (q : char) :
  is_quote q = true ->
  (forall c, In c s -> c <> q) ->
  (forall c, In c rest -> c <> q) ->
  find_matching_brace
    (pre ++ lbrace :: q :: s ++ backslash :: q :: rest) (len pre)
  = Ok (-1).
Proof.
  intros Hq Hs Hrest. unfold find_matching_brace.
  set (body := s ++ backslash :: q :: rest).
  set (text := pre ++ lbrace :: q :: body).
  assert (Hseg : segment text (List.length pre) (lbrace :: q :: body)).
  { unfold text. rewrite <- (app_nil_r (lbrace :: q :: body)) at 1.
    apply segment_middle. }
  apply segment_cons in Hseg. destruct Hseg as [Hopen Hseg].
  apply segment_cons in Hseg. destruct Hseg as [Hquote Hbody].
  replace (Z.to_nat (len text - len pre)) with (S (S (List.length body + 0)))
    by (unfold text, len; rewrite length_app; cbn [List.length]; lia).
  unfold len at 1. rewrite (fmb_loop_open _ _ _ _ Hopen).
  rewrite (fmb_loop_quote_open _ _ _ _ _ Hquote Hq);
    [|apply (preceded_after _ _ _ Hopen); discriminate].
  rewrite fmb_loop_string_body.
  - rewrite fmb_loop_0.
    destruct (Z.ltb_spec (Z.of_nat (S (S (List.length pre)) + List.length body))
                (len text)); [|reflexivity].
    unfold text, len in *. rewrite length_app in *. cbn [List.length] in *. lia.
  - intros k Hk. rewrite (Hbody k Hk).
    destruct (nth_error body k) as [c|] eqn:Ec;
      [|apply nth_error_None in Ec; lia].
    exists c. split; [reflexivity|].
    destruct (N.eq_dec c q) as [->|Hne]; [right|left; exact Hne].
    unfold body in Ec.
    destruct (Nat.lt_trichotomy k (S (List.length s))) as [Hlt|[Heq|Hgt]].
    + exfalso. destruct (Nat.eq_dec k (List.length s)) as [->|Hn].
      * rewrite nth_error_app2, Nat.sub_diag in Ec by lia.
        injection Ec as Ec. apply is_quote_not_backslash in Hq.
        rewrite <- Ec in Hq. discriminate.
      * rewrite nth_error_app1 in Ec by lia.
        apply nth_error_In in Ec. exact (Hs q Ec eq_refl).
    + subst k.
      replace (S (S (List.length pre)) + S (List.length s))%nat
        with (S (S (S (List.length pre)) + List.length s)) by lia.
      cbn [preceded_by_backslash].
      rewrite (Hbody (List.length s)) by lia. unfold body.
      rewrite nth_error_app2, Nat.sub_diag by lia. reflexivity.
    + exfalso. rewrite nth_error_app2 in Ec by lia.
      destruct (k - List.length s)%nat as [|[|m]] eqn:Em; [lia|lia|].
      cbn [nth_error] in Ec. apply nth_error_In in Ec.
      exact (Hrest q Ec eq_refl).
Qed.

Lemma backslash_before_closing_quote_witness :
  find_matching_brace
    (lit "x = " ++ lbrace :: dquote :: lit "C:\" ++ backslash :: dquote :: lit " }; }")
    (len (lit "x = "))
  = Ok (-1).
Proof.
  apply (backslash_before_closing_quote (lit "x = ") (lit "C:\") (lit " }; }")
           dquote).
  - reflexivity.
  - intros c Hc E. subst c. vm_compute in Hc.
    repeat (destruct Hc as [Hc|Hc]; [discriminate|]). exact Hc.
  - intros c Hc E. subst c. vm_compute in Hc.
    repeat (destruct Hc as [Hc|Hc]; [discriminate|]). exact Hc.
Defined.

Lemma scanner_result_iff_witness :
  (0 <= 6)%nat /\ closes_at (lit "{a{b}c}d}") 0 6
  /\ forall k, (0 <= k < 6)%nat -> ~ closes_at (lit "{a{b}c}d}") 0 k.
Proof.
  apply (proj1 (proj1 (scanner_result_iff (lit "{a{b}c}d}") 0 6))).
  reflexivity.
Defined.

Lemma driver_writes_witness :
  In "frontend/vue-mounted.js"%string
     ["frontend/vue-template.html"; "frontend/vue-data.js";
      "frontend/vue-computed.js"; "frontend/vue-methods.js";
      "frontend/vue-mounted.js"]%string
  /\ lit " a(); " <> []
  /\ (1 <= List.length (splitlines (lit " a(); ")))%nat
  /\ In (Print (confirmation "mounted" (lit " a(); ")))
        ([WriteFile "frontend/vue-mounted.js" (lit " a(); ");
          Print (confirmation "mounted" (lit " a(); "))]
         ++ [Print done_line]).
Proof.
  apply (driver_writes (lit "mounted() { a(); }")
           ([WriteFile "frontend/vue-mounted.js" (lit " a(); ");
             Print (confirmation "mounted" (lit " a(); "))]
            ++ [Print done_line])
           ltac:(vm_compute; reflexivity)
           "frontend/vue-mounted.js"%string (lit " a(); ")).
  left. reflexivity.
Defined.
